(** * Whitecat create agent: the board protocol engine (board.go)

    A shallow embedding of [board.go]: the Inspector that classifies the
    lines a board prints, the serial primitives on the RXQueue, the
    command protocol, the chunked file transfer and the attach / detach /
    reset facade, followed by the properties proved about them.

    Conventions.
    - A Go [byte] is an [ascii]; a Go [string] and a [[]byte] are both
      [list ascii] (a Go string is its bytes).  A nil-able [[]byte] is an
      [option (list ascii)] with [None] for [nil].
    - A Go [int] is a [Z]; the values met here are bounded by the length of
      a buffer plus the chunk size, far from the 64-bit limits.
    - The board at the far end of the serial port is a state machine that
      reacts to every byte the host writes and to changes of the control
      lines; what it prints goes through the Inspector into the RXQueue. *)

From Stdlib Require Import List Ascii String ZArith Lia Bool Arith.
Import ListNotations.
Local Open Scope list_scope.

(* ================================================================= *)
(** ** Bytes and strings *)

Definition bytes := list ascii.

(** A string literal of the source, as its bytes. *)
Definition B (s : string) : bytes := list_ascii_of_string s.

Definition LF : ascii := ascii_of_nat 10.
Definition CR : ascii := ascii_of_nat 13.
Definition TAB : ascii := ascii_of_nat 9.
Definition FF : ascii := ascii_of_nat 12.
(** The double quote character of the JSON texts and Lua commands. *)
Definition DQ : ascii := ascii_of_nat 34.
(** The probe byte written by [isBooting] and [isRunning]. *)
Definition EOT : ascii := ascii_of_nat 4.

(** [a == b] on strings. *)
Fixpoint beq (a b : bytes) : bool :=
  match a, b with
  | [], [] => true
  | x :: a', y :: b' => Ascii.eqb x y && beq a' b'
  | _, _ => false
  end.

(** [string(b)] for a byte [b] (and [string(rune(b))]): Go converts the
    integer to the UTF-8 encoding of that code point, one byte below 0x80
    and two bytes from 0x80 to 0xFF. *)
Definition runeString (b : ascii) : bytes :=
  let n := nat_of_ascii b in
  if n <? 128 then [b]
  else [ascii_of_nat (192 + n / 64); ascii_of_nat (128 + n mod 64)].

(** [strings.Split(s, sep)] for a one-byte separator: the pieces between
    the separators, one more than there are separators. *)
Fixpoint split_go (sep : ascii) (cur : bytes) (s : bytes) : list bytes :=
  match s with
  | [] => [cur]
  | c :: s' =>
      if Ascii.eqb c sep then cur :: split_go sep [] s'
      else split_go sep (cur ++ [c]) s'
  end.

Definition Split (s : bytes) (sep : ascii) : list bytes := split_go sep [] s.

(** [strings.Replace(s, old, empty, -1)] for a one-byte [old]. *)
Definition Remove (s : bytes) (old : ascii) : bytes :=
  filter (fun c => negb (Ascii.eqb c old)) s.

(** [strings.Replace(s, old, new, -1)] for a two-byte [old]; matches are
    taken left to right and do not overlap. *)
Fixpoint Replace2 (o1 o2 : ascii) (new : bytes) (s : bytes) : bytes :=
  match s with
  | c1 :: ((c2 :: s'') as s') =>
      if Ascii.eqb c1 o1 && Ascii.eqb c2 o2
      then new ++ Replace2 o1 o2 new s''
      else c1 :: Replace2 o1 o2 new s'
  | _ => s
  end.

(* ================================================================= *)
(** ** Regular expressions (package regexp)

    The patterns of [board.go] use anchors, literals, [.], the classes
    [[a-zA-Z]], [\d] and [\s], the greedy star and capture groups.  The
    matcher is a backtracking one: it tries the alternatives of a star
    longest first and the start positions left to right, which is the
    leftmost-first match [regexp] reports.  It works on bytes; the
    literals and classes of these patterns are ASCII and every [.] stands
    under a star, so matching runes or bytes accepts the same strings. *)

Inductive regex : Type :=
| Bol                               (* ^ *)
| Eol                               (* $ *)
| Sat (p : ascii -> bool)           (* one byte of a class *)
| Cat (r1 r2 : regex)
| Star (r : regex)                  (* greedy repetition *)
| Grp (i : nat) (r : regex).        (* the i-th capture group *)

Definition lit (c : ascii) : regex := Sat (Ascii.eqb c).
(** [.]: any byte but a newline. *)
Definition dot : regex := Sat (fun c => negb (Ascii.eqb c LF)).
(** [\d] *)
Definition digit : regex :=
  Sat (fun c => (48 <=? nat_of_ascii c) && (nat_of_ascii c <=? 57)).
(** [[a-zA-Z]] *)
Definition alpha : regex :=
  Sat (fun c => let n := nat_of_ascii c in
                ((97 <=? n) && (n <=? 122)) || ((65 <=? n) && (n <=? 90))).
(** [\s]: tab, newline, form feed, carriage return, space. *)
Definition space : regex :=
  Sat (fun c => Ascii.eqb c TAB || Ascii.eqb c LF || Ascii.eqb c FF
                || Ascii.eqb c CR || Ascii.eqb c " "%char).

(** A sequence of pieces. *)
Fixpoint seq (rs : list regex) : regex :=
  match rs with
  | [] => Star (Sat (fun _ => false))
  | [r] => r
  | r :: rs' => Cat r (seq rs')
  end.

(** Captures: the text of each group that took part in the match. *)
Definition caps := list (nat * bytes).

Fixpoint cap (i : nat) (cs : caps) : bytes :=
  match cs with
  | [] => []
  | (j, t) :: cs' => if Nat.eqb i j then t else cap i cs'
  end.

(** [rmatch r pos s cs k]: match [r] at offset [pos], where [s] is what is
    left of the subject, then hand over to the continuation [k]. *)
Fixpoint rmatch (r : regex) (pos : nat) (s : bytes) (cs : caps)
    (k : nat -> bytes -> caps -> option caps) {struct r} : option caps :=
  match r with
  | Bol => if Nat.eqb pos 0 then k pos s cs else None
  | Eol => match s with [] => k pos s cs | _ :: _ => None end
  | Sat p =>
      match s with
      | c :: s' => if p c then k (S pos) s' cs else None
      | [] => None
      end
  | Cat r1 r2 =>
      rmatch r1 pos s cs (fun pos' s' cs' => rmatch r2 pos' s' cs' k)
  | Star r1 =>
      (fix star (n : nat) (pos : nat) (s : bytes) (cs : caps) : option caps :=
         match n with
         | O => k pos s cs
         | S n' =>
             match rmatch r1 pos s cs
                     (fun pos' s' cs' =>
                        if Nat.ltb pos pos' then star n' pos' s' cs' else None)
             with
             | Some c => Some c
             | None => k pos s cs
             end
         end) (List.length s) pos s cs
  | Grp i r1 =>
      rmatch r1 pos s cs
        (fun pos' s' cs' => k pos' s' ((i, firstn (pos' - pos) s) :: cs'))
  end.

(** The leftmost match, trying every start offset in turn. *)
Fixpoint find_from (r : regex) (pos : nat) (s : bytes) : option caps :=
  match rmatch r pos s [] (fun _ _ cs => Some cs) with
  | Some cs => Some cs
  | None =>
      match s with
      | [] => None
      | _ :: s' => find_from r (S pos) s'
      end
  end.

(** [re.FindStringSubmatch(s)]: the captures of the leftmost match. *)
Definition FindStringSubmatch (r : regex) (s : bytes) : option caps :=
  find_from r 0 s.

(** [re.MatchString(s)] *)
Definition MatchString (r : regex) (s : bytes) : bool :=
  match find_from r 0 s with Some _ => true | None => false end.

(** [parts[i]] of a submatch result. *)
Definition part (m : option caps) (i : nat) : bytes :=
  match m with Some cs => cap i cs | None => [] end.

(** *** Reading a pattern

    [regexp.MustCompile] for the syntax used in [board.go]: the anchors,
    [.], a backslash escape ([\d], [\s], or the escaped byte itself), a
    bracketed class of bytes and ranges, a parenthesised group (numbered by
    its opening parenthesis, from 1) and the postfix star. *)

Definition in_range (lo hi c : ascii) : bool :=
  (nat_of_ascii lo <=? nat_of_ascii c) && (nat_of_ascii c <=? nat_of_ascii hi).

(** The inside of a bracketed class, up to the closing bracket. *)
Fixpoint parse_class (n : nat) (s : bytes) (p : ascii -> bool)
    : option ((ascii -> bool) * bytes) :=
  match n with
  | O => None
  | S n' =>
      match s with
      | [] => None
      | c :: s' =>
          if Ascii.eqb c "]" then Some (p, s')
          else
            match s' with
            | d :: hi :: s'' =>
                if Ascii.eqb d "-" && negb (Ascii.eqb hi "]")
                then parse_class n' s'' (fun x => p x || in_range c hi x)
                else parse_class n' s' (fun x => p x || Ascii.eqb c x)
            | _ => parse_class n' s' (fun x => p x || Ascii.eqb c x)
            end
      end
  end.

(** A backslash escape. *)
Definition escape (c : ascii) : regex :=
  if Ascii.eqb c "d" then digit
  else if Ascii.eqb c "s" then space
  else lit c.

(** The pieces of a pattern up to its end or to an unmatched closing
    parenthesis; [g] is the number of the next group. *)
Fixpoint parse (n : nat) (s : bytes) (g : nat) (acc : list regex)
    : option (list regex * bytes * nat) :=
  match n with
  | O => None
  | S n' =>
      match s with
      | [] => Some (rev acc, [], g)
      | c :: s' =>
          if Ascii.eqb c ")" then Some (rev acc, s, g)
          else if Ascii.eqb c "*" then
            match acc with
            | r :: acc' => parse n' s' g (Star r :: acc')
            | [] => None
            end
          else if Ascii.eqb c "(" then
            match parse n' s' (S g) [] with
            | Some (rs, _ :: s'', g') => parse n' s'' g' (Grp g (seq rs) :: acc)
            | _ => None
            end
          else if Ascii.eqb c "\" then
            match s' with
            | e :: s'' => parse n' s'' g (escape e :: acc)
            | [] => None
            end
          else if Ascii.eqb c "[" then
            match parse_class n' s' (fun _ => false) with
            | Some (p, s'') => parse n' s'' g (Sat p :: acc)
            | None => None
            end
          else if Ascii.eqb c "^" then parse n' s' g (Bol :: acc)
          else if Ascii.eqb c "$" then parse n' s' g (Eol :: acc)
          else if Ascii.eqb c "." then parse n' s' g (dot :: acc)
          else parse n' s' g (lit c :: acc)
      end
  end.

(** [regexp.MustCompile(pattern)].  The patterns of [board.go] are
    constants that compile (see [patterns_compile] below); a pattern that
    does not, for which Go panics, is given the expression that matches
    nothing. *)
Definition MustCompile (pattern : string) : regex :=
  match parse (S (String.length pattern)) (B pattern) 1 [] with
  | Some (rs, [], _) => seq rs
  | _ => Sat (fun _ => false)
  end.

Definition rePowerOnReset : regex :=
  MustCompile "^rst:.*\(POWERON_RESET\),boot:.*(.*)$".

Definition reSoftwareReset : regex :=
  MustCompile "^rst:.*(SW_CPU_RESET),boot:.*(.*)$".

Definition reDeepSleepReset : regex :=
  MustCompile "^rst:.*(DEEPSLEEP_RESET),boot.*(.*)$".

Definition reStructuredError : regex :=
  MustCompile "^([a-zA-Z]*):(\d*)\:\s(\d*)\:(.*)$".

Definition reLooseError : regex :=
  MustCompile "^([a-zA-Z]*)\:(\d*)\:\s*(.*)$".

Definition rePrompt : regex := MustCompile "^/.*>.*$".

(** Test if line corresponds to Lua RTOS prompt. *)
Definition isPrompt (line : bytes) : bool := MatchString rePrompt line.

(** A string literal of the source that holds double quotes: every
    apostrophe of [s] stands for a double quote (no literal of [board.go]
    holds an apostrophe). *)
Definition Q (s : string) : bytes :=
  map (fun c => if Ascii.eqb c "'" then DQ else c) (B s).

(** [strings.Join]-like concatenation with a separator. *)
Fixpoint join (sep : bytes) (ls : list bytes) : bytes :=
  match ls with
  | [] => []
  | [l] => l
  | l :: ls' => l ++ sep ++ join sep ls'
  end.

(* ================================================================= *)
(** ** The Inspector's line classifier *)

(** A call [notify(event, info)]. *)
Definition notification := (bytes * bytes)%type.

(** The three reset-cause tests (lines 78 to 91), each an [if] of its own. *)
Definition resetCauseTests (line : bytes) : list notification :=
  (if MatchString rePowerOnReset line then [(B "boardPowerOnReset", [])] else [])
  ++ (if MatchString reSoftwareReset line then [(B "boardSoftwareReset", [])] else [])
  ++ (if MatchString reDeepSleepReset line then [(B "boardDeepSleepReset", [])] else []).

(** The payload of a structured runtime error (lines 96 to 101). *)
Definition structuredInfo (line : bytes) : bytes :=
  let parts := FindStringSubmatch reStructuredError line in
  Q "'where': '" ++ part parts 1 ++ Q "', " ++
  Q "'line': '" ++ part parts 2 ++ Q "', " ++
  Q "'exception': '" ++ part parts 3 ++ Q "', " ++
  Q "'message': '" ++ part parts 4 ++ Q "'".

(** The payload of a loose runtime error (lines 107 to 112). *)
Definition looseInfo (line : bytes) : bytes :=
  let parts := FindStringSubmatch reLooseError line in
  Q "'where': '" ++ part parts 1 ++ Q "', " ++
  Q "'line': '" ++ part parts 2 ++ Q "', " ++
  Q "'exception': '0', " ++
  Q "'message': '" ++ part parts 3 ++ Q "'".

(** The runtime-error tests (lines 94 to 116), an [if] with an [else]. *)
Definition errorTests (line : bytes) : list notification :=
  if MatchString reStructuredError line
  then [(B "boardRuntimeError", structuredInfo line)]
  else if MatchString reLooseError line
       then [(B "boardRuntimeError", looseInfo line)]
       else [].

(** What the Inspector notifies for one complete line. *)
Definition classify (disableInspectorBootNotify : bool) (line : bytes)
    : list notification :=
  (if negb disableInspectorBootNotify then resetCauseTests line else [])
  ++ errorTests line.

(* ================================================================= *)
(** ** The board session *)

(** A reference to a [Board]: nil, the board this session models, or some
    other board object. *)
Inductive boardRef : Type :=
| nilBoard
| thisBoard
| otherBoard (k : nat).

(** One outcome of [port.Read(buffer)] on the one-byte buffer: an error, or
    a count [n] with the byte that [buffer[0]] then holds. *)
Inductive readResult : Type :=
| ReadErr
| ReadOk (n : nat) (b : ascii).

Section Engine.

(** The board at the far end of the serial line: its state, its reaction
    to a byte written by the host, and its reaction to the flow-control
    lines being set ([port.Apply]).  Each reaction gives the bytes the
    board prints. *)
Variable D : Type.
Variable dev_byte : D -> ascii -> D * bytes.
Variable dev_ctl : D -> bool -> D * bytes.

(** The state a call of a [Board] method works on: the fields of the
    [Board], the Inspector's line, the package variable [connectedBoard],
    and the surroundings (the device, the calls made on the transport and
    the notifier, the host's files and serial devices).

    The RXQueue is a channel of capacity 10240 on which the Inspector
    blocks when it is full; it is modelled by the list of the bytes in
    flight, a blocked send being one that has not happened yet.  The
    transport's [Close] is total, as in its contract. *)
Record World : Type := mkWorld {
  dev : D;
  port_open : bool;
  info : bytes;
  RXQueue : bytes;
  chunkSize : Z;
  disableInspectorBootNotify : bool;
  line : bytes;
  notified : list notification;
  written : list bytes;
  connectedBoard : boardRef;
  hostFile : option bytes;
  serialDevices : list bytes
}.

Definition set_dev (x : D) (w : World) : World :=
  mkWorld x (port_open w) (info w) (RXQueue w) (chunkSize w)
    (disableInspectorBootNotify w) (line w) (notified w) (written w)
    (connectedBoard w) (hostFile w) (serialDevices w).
Definition set_port_open (x : bool) (w : World) : World :=
  mkWorld (dev w) x (info w) (RXQueue w) (chunkSize w)
    (disableInspectorBootNotify w) (line w) (notified w) (written w)
    (connectedBoard w) (hostFile w) (serialDevices w).
Definition set_info (x : bytes) (w : World) : World :=
  mkWorld (dev w) (port_open w) x (RXQueue w) (chunkSize w)
    (disableInspectorBootNotify w) (line w) (notified w) (written w)
    (connectedBoard w) (hostFile w) (serialDevices w).
Definition set_RXQueue (x : bytes) (w : World) : World :=
  mkWorld (dev w) (port_open w) (info w) x (chunkSize w)
    (disableInspectorBootNotify w) (line w) (notified w) (written w)
    (connectedBoard w) (hostFile w) (serialDevices w).
Definition set_chunkSize (x : Z) (w : World) : World :=
  mkWorld (dev w) (port_open w) (info w) (RXQueue w) x
    (disableInspectorBootNotify w) (line w) (notified w) (written w)
    (connectedBoard w) (hostFile w) (serialDevices w).
Definition set_disableInspectorBootNotify (x : bool) (w : World) : World :=
  mkWorld (dev w) (port_open w) (info w) (RXQueue w) (chunkSize w)
    x (line w) (notified w) (written w)
    (connectedBoard w) (hostFile w) (serialDevices w).
Definition set_line (x : bytes) (w : World) : World :=
  mkWorld (dev w) (port_open w) (info w) (RXQueue w) (chunkSize w)
    (disableInspectorBootNotify w) x (notified w) (written w)
    (connectedBoard w) (hostFile w) (serialDevices w).
Definition set_notified (x : list notification) (w : World) : World :=
  mkWorld (dev w) (port_open w) (info w) (RXQueue w) (chunkSize w)
    (disableInspectorBootNotify w) (line w) x (written w)
    (connectedBoard w) (hostFile w) (serialDevices w).
Definition set_written (x : list bytes) (w : World) : World :=
  mkWorld (dev w) (port_open w) (info w) (RXQueue w) (chunkSize w)
    (disableInspectorBootNotify w) (line w) (notified w) x
    (connectedBoard w) (hostFile w) (serialDevices w).
Definition set_connectedBoard (x : boardRef) (w : World) : World :=
  mkWorld (dev w) (port_open w) (info w) (RXQueue w) (chunkSize w)
    (disableInspectorBootNotify w) (line w) (notified w) (written w)
    x (hostFile w) (serialDevices w).

(** [notify(event, info)] *)
Definition notify (event info : bytes) (w : World) : World :=
  set_notified (notified w ++ [(event, info)]) w.

(* ----------------------------------------------------------------- *)
(** *** The Inspector *)

(** The body of the Inspector's loop for one byte read (lines 74 to 125):
    a newline classifies the line and empties it, any other byte but a
    carriage return is appended to the line, and the byte is sent to the
    RXQueue in every case. *)
Definition inspect (b : ascii) (w : World) : World :=
  let w1 :=
    if Ascii.eqb b LF then
      set_line []
        (set_notified
           (notified w ++ classify (disableInspectorBootNotify w) (line w)) w)
    else if negb (Ascii.eqb b CR) then set_line (line w ++ runeString b) w
    else w in
  set_RXQueue (RXQueue w1 ++ [b]) w1.

(** The Inspector's loop over the outcomes of its successive reads: it
    ends at the first error, and a read of no byte changes nothing. *)
Fixpoint inspector (reads : list readResult) (w : World) : World :=
  match reads with
  | [] => w
  | ReadErr :: _ => w
  | ReadOk n b :: reads' =>
      inspector reads' (if 0 <? n then inspect b w else w)
  end.

(** The bytes the board prints reach the Inspector one read each. *)
Definition receive (out : bytes) (w : World) : World :=
  inspector (map (ReadOk 1) out) w.

(* ----------------------------------------------------------------- *)
(** *** The transport *)

(** The board's reaction to the bytes of one write, in order. *)
Fixpoint dev_bytes (d : D) (bs : bytes) : D * bytes :=
  match bs with
  | [] => (d, [])
  | b :: bs' =>
      let (d1, out1) := dev_byte d b in
      let (d2, out2) := dev_bytes d1 bs' in
      (d2, out1 ++ out2)
  end.

(** [board.port.Write(bs)]; the error of a write on a closed port is
    dropped by every caller, and the board then sees nothing. *)
Definition portWrite (bs : bytes) (w : World) : World :=
  let w1 := set_written (written w ++ [bs]) w in
  if port_open w then
    let (d, out) := dev_bytes (dev w) bs in
    receive out (set_dev d w1)
  else w1.

(** [board.port.Apply(&options)] with the flow control on or off. *)
Definition portApply (flowControl : bool) (w : World) : World :=
  if port_open w then
    let (d, out) := dev_ctl (dev w) flowControl in
    receive out (set_dev d w)
  else w.

(** [board.port.Close()] *)
Definition portClose (w : World) : World := set_port_open false w.

(* ----------------------------------------------------------------- *)
(** *** Calls that may wait *)

(** How a call ends: it returns a value, it waits for ever on an empty
    RXQueue that nothing will fill, or the steps allowed to its loops ran
    out. *)
Inductive outcome (A : Type) : Type :=
| Ret (a : A) (w : World)
| Blocked (w : World)
| Timeout.
Arguments Ret {A} a w.
Arguments Blocked {A} w.
Arguments Timeout {A}.

Definition M (A : Type) : Type := World -> outcome A.

Definition ret {A : Type} (a : A) : M A := fun w => Ret a w.

Definition bind {A C : Type} (m : M A) (k : A -> M C) : M C :=
  fun w =>
    match m w with
    | Ret a w' => k a w'
    | Blocked w' => Blocked w'
    | Timeout => Timeout
    end.

(** A step that only changes the state. *)
Definition act (f : World -> World) : M unit := fun w => Ret tt (f w).

(** Reading a part of the state. *)
Definition gets {A : Type} (f : World -> A) : M A := fun w => Ret (f w) w.

Notation "x <- m ;; k" := (bind m (fun x => k))
  (at level 61, m at next level, right associativity).
Notation "m ;; k" := (bind m (fun _ => k))
  (at level 61, right associativity).

(** Read one byte from RXQueue. *)
Definition read : M ascii :=
  fun w =>
    match RXQueue w with
    | [] => Blocked w
    | b :: q => Ret b (set_RXQueue q w)
    end.

(** The loop of [readLine], with [n] bytes allowed. *)
Fixpoint readLine_loop (n : nat) (buffer : bytes) : M bytes :=
  match n with
  | O => fun _ => Timeout
  | S n' =>
      b <- read ;;
      if Ascii.eqb b LF then ret buffer
      else if negb (Ascii.eqb b CR) then readLine_loop n' (buffer ++ runeString b)
      else readLine_loop n' buffer
  end.

(** Read one line from RXQueue.  The loop takes a byte a turn, so one turn
    more than the queue holds is all it can use. *)
Definition readLine : M bytes :=
  fun w => readLine_loop (S (List.length (RXQueue w))) [] w.

(** The loop of [consume]. *)
Fixpoint consume_loop (n : nat) : M unit :=
  match n with
  | O => fun _ => Timeout
  | S n' =>
      len <- gets (fun w => List.length (RXQueue w)) ;;
      if 0 <? len then (read ;; consume_loop n') else ret tt
  end.

(** [consume]: after the settle time, drain the RXQueue. *)
Definition consume : M unit :=
  fun w => consume_loop (S (List.length (RXQueue w))) w.

(** Check if board is booting. *)
Definition isBooting : M bool :=
  act (portWrite [EOT]) ;;
  line <- readLine ;;
  ret (beq line (B "Lua RTOS-booting-ESP32")
       || beq line (B "Lua RTOS-boot-scripts-aborted-ESP32")
       || beq line (B "Lua RTOS-running-ESP32")).

(** Check if board is running. *)
Definition isRunning : M bool :=
  act (portWrite [EOT]) ;;
  line <- readLine ;;
  ret (beq line (B "Lua RTOS-running-ESP32")).

(* ----------------------------------------------------------------- *)
(** *** The command protocol *)

(** The loop of [sendCommand] (lines 253 to 264): read until prompt. *)
Fixpoint sendCommand_loop (n : nat) (response : bytes) : M bytes :=
  match n with
  | O => fun _ => Timeout
  | S n' =>
      line <- readLine ;;
      if isPrompt line then ret response
      else
        let response1 :=
          if negb (beq response []) then response ++ [CR; LF] else response in
        sendCommand_loop n' (response1 ++ line)
  end.

(** Send a command to the board. *)
Definition sendCommand (n : nat) (command : bytes) : M bytes :=
  act (portWrite (command ++ [CR; LF])) ;;
  line <- readLine ;;
  if beq line command then sendCommand_loop n [] else ret [].

Definition getInfo (n : nat) : M bytes :=
  info <- sendCommand n (Q "dofile('/_info.lua')") ;;
  let info := Replace2 "," "}" (B "}") info in
  let info := Replace2 "," "]" (B "]") info in
  ret info.

(* ----------------------------------------------------------------- *)
(** *** The directory listing *)

(** The body of the loop of [getDirContent] for one line (lines 330 to
    343). *)
Definition dirLine (content line : bytes) : bytes :=
  let element := Split (Remove line CR) TAB in
  if Nat.eqb (List.length element) 4 then
    let content := if negb (beq content []) then content ++ B "," else content in
    content ++ B "{" ++
      Q "'type': '" ++ nth 0 element [] ++ Q "'," ++
      Q "'size': '" ++ nth 1 element [] ++ Q "'," ++
      Q "'date': '" ++ nth 2 element [] ++ Q "'," ++
      Q "'name': '" ++ nth 3 element [] ++ Q "'" ++
      B "}"
  else content.

(** What [getDirContent] makes of the response to its command. *)
Definition dirContent (response : bytes) : bytes :=
  B "[" ++ fold_left dirLine (Split response LF) [] ++ B "]".

Definition getDirContent (n : nat) (path : bytes) : M bytes :=
  response <- sendCommand n (Q "os.ls('" ++ path ++ Q "')") ;;
  ret (dirContent response).

(* ----------------------------------------------------------------- *)
(** *** The file transfer *)

(** [byte(n)]: the low eight bits. *)
Definition byte (n : Z) : ascii := ascii_of_N (Z.to_N (n mod 256)).

(** [buffer[lo:hi]]; the indices [writeFile] gives are in range. *)
Definition slice (buffer : bytes) (lo hi : Z) : bytes :=
  firstn (Z.to_nat (hi - lo)) (skipn (Z.to_nat lo) buffer).

(** Get chunk length (lines 362 to 370). *)
Definition chunkLen (chunkSize len outIndex : Z) : Z :=
  (if outIndex <? len then
     if outIndex + chunkSize - 1 <? len then chunkSize else len - outIndex
   else 0)%Z.

(** The loop of [writeFile] (lines 358 to 384). *)
Fixpoint writeFile_loop (n : nat) (buffer : bytes) (outIndex : Z) : M unit :=
  match n with
  | O => fun _ => Timeout
  | S n' =>
      line <- readLine ;;
      if beq line (B "C") then
        chunkSize <- gets chunkSize ;;
        let outLen := chunkLen chunkSize (Z.of_nat (List.length buffer)) outIndex in
        act (portWrite [byte outLen]) ;;
        if (0 <? outLen)%Z then
          act (portWrite (slice buffer outIndex (outIndex + outLen)%Z)) ;;
          writeFile_loop n' buffer (outIndex + outLen)%Z
        else ret tt
      else writeFile_loop n' buffer outIndex
  end.

Definition writeFile (n : nat) (path : bytes) (buffer : bytes) : M unit :=
  let writeCommand := Q "io.receive('" ++ path ++ Q "')" in
  act (portWrite (writeCommand ++ [CR])) ;;
  line <- readLine ;;
  if beq line writeCommand then
    writeFile_loop n buffer 0%Z ;;
    consume
  else ret tt.

(** Read chunk (lines 409 to 413): [inLen] bytes into the buffer. *)
Fixpoint readChunk (inLen : nat) (buffer : bytes) : M bytes :=
  match inLen with
  | O => ret buffer
  | S k => b <- read ;; readChunk k (buffer ++ [b])
  end.

(** The loop of [readFile] (lines 400 to 418). *)
Fixpoint readFile_loop (n : nat) (buffer : bytes) : M bytes :=
  match n with
  | O => fun _ => Timeout
  | S n' =>
      act (portWrite (B "C" ++ [LF])) ;;
      inLen <- read ;;
      if 0 <? nat_of_ascii inLen then
        buffer <- readChunk (nat_of_ascii inLen) buffer ;;
        readFile_loop n' buffer
      else ret buffer
  end.

(** [buffer.Bytes()] of a [bytes.Buffer] that started as the zero value: a
    buffer nothing was written to has no array yet and gives [nil]. *)
Definition Bytes (buffer : bytes) : option bytes :=
  match buffer with
  | [] => None
  | _ :: _ => Some buffer
  end.

Definition readFile (n : nat) (path : bytes) : M (option bytes) :=
  let readCommand := Q "io.send('" ++ path ++ Q "')" in
  act (portWrite (readCommand ++ [CR])) ;;
  line <- readLine ;;
  if beq line readCommand then
    buffer <- readFile_loop n [] ;;
    consume ;;
    ret (Bytes buffer)
  else ret None.

(* ----------------------------------------------------------------- *)
(** *** Reset, run, attach, detach *)

(** The two polling loops of [reset]: probe until the answer is true. *)
Fixpoint poll (n : nat) (probe : M bool) : M unit :=
  match n with
  | O => fun _ => Timeout
  | S n' => b <- probe ;; if b then ret tt else poll n' probe
  end.

Definition reset (n : nat) : M bool :=
  (* Enable flow control for reset board, then back to none *)
  act (portApply true) ;;
  act (portApply false) ;;
  (* Wait until board is in booting mode, then in running mode *)
  poll n isBooting ;;
  poll n isRunning ;;
  (* Consume all bytes from serial port *)
  consume ;;
  (* Send prerequisites to board *)
  file <- gets hostFile ;;
  match file with
  | Some buffer => writeFile n (B "/_info.lua") buffer
  | None => ret tt
  end ;;
  (* Get board info *)
  info <- getInfo n ;;
  act (set_info info) ;;
  ret true.

Definition runCode (n : nat) (path : bytes) (code : bytes) : M unit :=
  act (set_disableInspectorBootNotify true) ;;
  ok <- reset n ;;
  if ok : bool then
    act (set_disableInspectorBootNotify false) ;;
    writeFile n (B "/autorun.lua") ((Q "dofile('" ++ path ++ Q "')") ++ [CR; LF]) ;;
    writeFile n path code ;;
    act (portWrite ((Q "dofile('" ++ path ++ Q "')") ++ [CR])) ;;
    consume
  else ret tt.

(** [options.Open(info.Name())] succeeds on the serial devices at hand. *)
Definition canOpen (name : bytes) (w : World) : bool :=
  existsb (beq name) (serialDevices w).

Definition attach (n : nat) (name : bytes) : M bool :=
  opened <- gets (canOpen name) ;;
  if negb opened then ret false
  else
    (* Create board struct *)
    act (set_port_open true) ;;
    act (set_RXQueue []) ;;
    act (set_chunkSize 255%Z) ;;
    act (set_disableInspectorBootNotify false) ;;
    (* go board.inspector() *)
    act (set_line []) ;;
    (* Reset the board *)
    ok <- reset n ;;
    if ok : bool then
      act (set_connectedBoard thisBoard) ;;
      act (notify (B "boardAttached") []) ;;
      ret true
    else ret false.

(** [detach], on a receiver that may be nil.  A board that is not nil has
    a port to close (it was attached); closing the port of another board
    leaves this session as it is. *)
Definition detach (board : boardRef) (w : World) : World :=
  let w1 :=
    match board with
    | nilBoard => w
    | thisBoard => portClose w
    | otherBoard _ => w
    end in
  set_connectedBoard nilBoard w1.

End Engine.

Arguments mkWorld {D}.
Arguments dev {D} w.
Arguments port_open {D} w.
Arguments info {D} w.
Arguments RXQueue {D} w.
Arguments chunkSize {D} w.
Arguments disableInspectorBootNotify {D} w.
Arguments line {D} w.
Arguments notified {D} w.
Arguments written {D} w.
Arguments connectedBoard {D} w.
Arguments hostFile {D} w.
Arguments serialDevices {D} w.
Arguments set_dev {D} x w.
Arguments set_port_open {D} x w.
Arguments set_info {D} x w.
Arguments set_RXQueue {D} x w.
Arguments set_chunkSize {D} x w.
Arguments set_disableInspectorBootNotify {D} x w.
Arguments set_line {D} x w.
Arguments set_notified {D} x w.
Arguments set_written {D} x w.
Arguments set_connectedBoard {D} x w.
Arguments notify {D} event info w.
Arguments inspect {D} b w.
Arguments inspector {D} reads w.
Arguments receive {D} out w.
Arguments dev_bytes {D} dev_byte d bs.
Arguments portWrite {D} dev_byte bs w.
Arguments portApply {D} dev_ctl flowControl w.
Arguments portClose {D} w.
Arguments Ret {D A} a w.
Arguments Blocked {D A} w.
Arguments Timeout {D A}.
Arguments ret {D A} a _.
Arguments bind {D A C} m k _.
Arguments act {D} f _.
Arguments gets {D A} f _.
Arguments read {D} _.
Arguments readLine_loop {D} n buffer _.
Arguments readLine {D} _.
Arguments consume_loop {D} n _.
Arguments consume {D} _.
Arguments isBooting {D} dev_byte _.
Arguments isRunning {D} dev_byte _.
Arguments sendCommand_loop {D} n response _.
Arguments sendCommand {D} dev_byte n command _.
Arguments getInfo {D} dev_byte n _.
Arguments getDirContent {D} dev_byte n path _.
Arguments writeFile_loop {D} dev_byte n buffer outIndex _.
Arguments writeFile {D} dev_byte n path buffer _.
Arguments readChunk {D} inLen buffer _.
Arguments readFile_loop {D} dev_byte n buffer _.
Arguments readFile {D} dev_byte n path _.
Arguments poll {D} n probe _.
Arguments reset {D} dev_byte dev_ctl n _.
Arguments runCode {D} dev_byte dev_ctl n path code _.
Arguments canOpen {D} name w.
Arguments attach {D} dev_byte dev_ctl n name _.
Arguments detach {D} board w.

Notation "x <- m ;; k" := (bind m (fun x => k))
  (at level 61, m at next level, right associativity).
Notation "m ;; k" := (bind m (fun _ => k))
  (at level 61, right associativity).

(* ================================================================= *)
(** ** A simulated board *)

(** Modelled from the spec: the device side of the wire contract, which is
    not part of the repository.  The board echoes a command line when it
    gets the carriage return, answers the probe byte with a boot banner,
    ends the output of a command with a prompt line, takes a file with
    [io.receive] (a ready line, then a length byte and that many payload
    bytes per chunk, a zero length ending the transfer) and gives one back
    with [io.send] (per ready line of the host a length byte and that many
    payload bytes, a zero length ending the transfer).  [dofile] prints the
    file as the output of the script. *)
Module Sim.

Inductive mode : Type :=
| Shell (cmd : bytes)
| RecvLen (path acc : bytes)
| RecvData (path acc : bytes) (n : nat)
| SendReady (rest : bytes)
| SendGo (rest : bytes).

Record state : Type := mkState {
  mode_of : mode;
  files : list (bytes * bytes);
  booting : nat
}.

Fixpoint lookup (path : bytes) (fs : list (bytes * bytes)) : bytes :=
  match fs with
  | [] => []
  | (p, content) :: fs' => if beq p path then content else lookup path fs'
  end.

Fixpoint strip_prefix (pre s : bytes) : option bytes :=
  match pre, s with
  | [], _ => Some s
  | x :: pre', y :: s' => if Ascii.eqb x y then strip_prefix pre' s' else None
  | _ :: _, [] => None
  end.

(** The argument of a call [f("...")], when [cmd] is one. *)
Definition call_arg (f : string) (cmd : bytes) : option bytes :=
  match strip_prefix (B f ++ Q "('") cmd with
  | Some rest =>
      match strip_prefix (rev (Q "')")) (rev rest) with
      | Some a => Some (rev a)
      | None => None
      end
  | None => None
  end.

Definition prompt : bytes := B "/ > " ++ [CR; LF].

Definition chunk : nat := 255.

(** A complete command line. *)
Definition run (cmd : bytes) (fs : list (bytes * bytes)) : mode * bytes :=
  match call_arg "io.receive" cmd with
  | Some path => (RecvLen path [], B "C" ++ [LF])
  | None =>
      match call_arg "io.send" cmd with
      | Some path => (SendReady (lookup path fs), [])
      | None =>
          match call_arg "dofile" cmd with
          | Some path => (Shell [], lookup path fs ++ [CR; LF] ++ prompt)
          | None => (Shell [], prompt)
          end
      end
  end.

Definition step (d : state) (b : ascii) : state * bytes :=
  match mode_of d with
  | Shell cmd =>
      if Ascii.eqb b EOT then
        match booting d with
        | O => (d, B "Lua RTOS-running-ESP32" ++ [CR; LF])
        | S k => (mkState (Shell cmd) (files d) k,
                  B "Lua RTOS-booting-ESP32" ++ [CR; LF])
        end
      else if Ascii.eqb b CR then
        let (m, out) := run cmd (files d) in
        (mkState m (files d) (booting d), cmd ++ [CR; LF] ++ out)
      else if Ascii.eqb b LF then (d, [])
      else (mkState (Shell (cmd ++ [b])) (files d) (booting d), [])
  | RecvLen path acc =>
      match nat_of_ascii b with
      | O => (mkState (Shell []) ((path, acc) :: files d) (booting d), prompt)
      | S k => (mkState (RecvData path acc (S k)) (files d) (booting d), [])
      end
  | RecvData path acc n =>
      match n with
      | S (S k) => (mkState (RecvData path (acc ++ [b]) (S k)) (files d) (booting d), [])
      | _ => (mkState (RecvLen path (acc ++ [b])) (files d) (booting d), B "C" ++ [LF])
      end
  | SendReady rest =>
      if Ascii.eqb b "C" then (mkState (SendGo rest) (files d) (booting d), [])
      else (d, [])
  | SendGo rest =>
      if Ascii.eqb b LF then
        match firstn chunk rest with
        | [] => (mkState (Shell []) (files d) (booting d), [ascii_of_nat 0] ++ prompt)
        | c :: cs =>
            (mkState (SendReady (skipn chunk rest)) (files d) (booting d),
             ascii_of_nat (List.length (c :: cs)) :: c :: cs)
        end
      else (mkState (SendReady rest) (files d) (booting d), [])
  end.

(** Setting the flow-control lines resets the board: it prints its reset
    line and answers the next probe with the booting banner. *)
Definition ctl (d : state) (flowControl : bool) : state * bytes :=
  if flowControl then
    (mkState (Shell []) (files d) 1,
     B "rst:0x1 (POWERON_RESET),boot:0x13 (SPI_FAST_FLASH_BOOT)" ++ [CR; LF])
  else (d, []).

(** A session on an opened port: the board idle at its shell, nothing in
    flight. *)
Definition session (fs : list (bytes * bytes)) (chunkSize : Z) : World state :=
  mkWorld (mkState (Shell []) fs 0) true [] [] chunkSize false [] [] []
    nilBoard None [].

(** The host before [attach]: a serial device [name] with the board behind
    it, and the board-info script [script] on the host's disk. *)
Definition plugged (name : bytes) (fs : list (bytes * bytes))
    (script : option bytes) : World state :=
  mkWorld (mkState (Shell []) fs 0) false [] [] 0 false [] [] []
    nilBoard script [name].

End Sim.

(* ================================================================= *)
(** ** Notions the properties are stated with *)

(** The first line of a queue: its text as [readLine] builds it (carriage
    returns left out, every other byte through [runeString]) and what
    follows its newline; nothing when the queue holds no newline. *)
Fixpoint takeLine (q : bytes) (buffer : bytes) : option (bytes * bytes) :=
  match q with
  | [] => None
  | b :: q' =>
      if Ascii.eqb b LF then Some (buffer, q')
      else takeLine q' (if negb (Ascii.eqb b CR) then buffer ++ runeString b
                        else buffer)
  end.

(** The bytes the Inspector reads from the transport, in arrival order:
    those of the reads with a positive count, up to the first error. *)
Fixpoint bytesRead (reads : list readResult) : bytes :=
  match reads with
  | [] => []
  | ReadErr :: _ => []
  | ReadOk n b :: reads' => (if 0 <? n then [b] else []) ++ bytesRead reads'
  end.

(** The text a run of bytes adds to the Inspector's line. *)
Definition lineText (bs : bytes) : bytes :=
  flat_map runeString (Remove bs CR).

(** Whether a run of bytes holds a newline, and what follows its last
    newline (the whole run when it holds none). *)
Definition hasLF (bs : bytes) : bool := existsb (Ascii.eqb LF) bs.

Fixpoint afterLastLF (bs : bytes) : bytes :=
  match bs with
  | [] => []
  | b :: bs' =>
      if hasLF bs' then afterLastLF bs'
      else if Ascii.eqb b LF then bs' else b :: bs'
  end.

(** The response lines read before the first line that matches the
    device-prompt pattern; the prompt line is read and left out. *)
Fixpoint linesUntilPrompt {D : Type} (n : nat) : M D (list bytes) :=
  match n with
  | O => fun _ => Timeout
  | S n' =>
      l <- readLine ;;
      if isPrompt l then ret []
      else (ls <- linesUntilPrompt n' ;; ret (l :: ls))
  end.

(** A list of lines without the empty lines it starts with. *)
Fixpoint dropEmpty (ls : list bytes) : list bytes :=
  match ls with
  | [] => []
  | l :: ls' => if beq l [] then dropEmpty ls' else ls
  end.

(** One turn of the loop of [sendCommand] on a line that is no prompt. *)
Definition addLine (response l : bytes) : bytes :=
  (if negb (beq response []) then response ++ [CR; LF] else response) ++ l.

(** The board as [attach] sets it up before the reset. *)
Definition opened {D : Type} (w : World D) : World D :=
  set_line []
    (set_disableInspectorBootNotify false
       (set_chunkSize 255%Z (set_RXQueue [] (set_port_open true w)))).

(** The chunks of a buffer: runs of [size] bytes in order, the last one
    maybe shorter. *)
Fixpoint chunks (fuel size : nat) (buffer : bytes) : list bytes :=
  match fuel with
  | O => []
  | S fuel' =>
      match buffer with
      | [] => []
      | _ :: _ => firstn size buffer :: chunks fuel' size (skipn size buffer)
      end
  end.

Definition chunksOf (size : nat) (buffer : bytes) : list bytes :=
  chunks (List.length buffer) size buffer.

(** The writes of a push: for each chunk its length as one byte and then
    its payload, and a zero length byte at the end. *)
Definition pushWrites (size : nat) (buffer : bytes) : list bytes :=
  flat_map (fun c => [[byte (Z.of_nat (List.length c))]; c]) (chunksOf size buffer)
  ++ [[byte 0]].

(** The bytes of a nil-able slice: a nil slice has none. *)
Definition sliceBytes (s : option bytes) : bytes :=
  match s with
  | None => []
  | Some b => b
  end.




(** The tab-delimited fields of a response line. *)
Definition fields (line : bytes) : list bytes := Split (Remove line CR) TAB.

Definition fourFields (element : list bytes) : bool :=
  Nat.eqb (List.length element) 4.

(** The object with the keys type, size, date and name. *)
Definition dirObject (element : list bytes) : bytes :=
  B "{" ++
    Q "'type': '" ++ nth 0 element [] ++ Q "'," ++
    Q "'size': '" ++ nth 1 element [] ++ Q "'," ++
    Q "'date': '" ++ nth 2 element [] ++ Q "'," ++
    Q "'name': '" ++ nth 3 element [] ++ Q "'" ++
    B "}".

(** The elements of the listing made from a response. *)
Definition dirElements (response : bytes) : list (list bytes) :=
  filter fourFields (map fields (Split response LF)).

(** The response body of the directory-parsing example. *)
Definition exampleListing : bytes :=
  B "f" ++ [TAB] ++ B "10" ++ [TAB] ++ B "2024-01-01" ++ [TAB] ++ B "a.lua" ++ [LF]
  ++ B "badline" ++ [LF]
  ++ B "d" ++ [TAB] ++ B "0" ++ [TAB] ++ B "2024-01-01" ++ [TAB] ++ B "sub".

(** The reset-cause events, in the order of their tests. *)
Definition resetCauseEvents : list notification :=
  [(B "boardPowerOnReset", []); (B "boardSoftwareReset", []);
   (B "boardDeepSleepReset", [])].

(** [l] is [full] with some of its elements left out. *)
Fixpoint sublist {A : Type} (l full : list A) : Prop :=
  match full with
  | [] => l = []
  | x :: full' =>
      sublist l full' \/
      match l with
      | [] => False
      | y :: l' => y = x /\ sublist l' full'
      end
  end.

(* ================================================================= *)
(** ** Basic facts *)

Arguments Ascii.eqb : simpl never.

Lemma beq_true_iff (a b : bytes) : beq a b = true <-> a = b.
Proof.
  revert b; induction a as [|x a IH]; intros [|y b]; simpl; split;
    try congruence; try reflexivity.
  - intros H. apply andb_true_iff in H as [H1 H2].
    apply Ascii.eqb_eq in H1. apply IH in H2. congruence.
  - intros H. injection H as -> ->. apply andb_true_iff; split.
    + apply Ascii.eqb_refl.
    + now apply IH.
Qed.

Lemma beq_refl (a : bytes) : beq a a = true.
Proof. now apply beq_true_iff. Qed.

Lemma beq_false_iff (a b : bytes) : beq a b = false <-> a <> b.
Proof.
  destruct (beq a b) eqn:E; split; intros H; try congruence.
  - apply beq_true_iff in E. contradiction.
  - intros ->. rewrite beq_refl in E. discriminate.
Qed.

Section Facts.

Context {D : Type}.
Variable dev_byte : D -> ascii -> D * bytes.
Variable dev_ctl : D -> bool -> D * bytes.

Implicit Types (w : World D) (q buffer : bytes).

Lemma set_RXQueue_same w : set_RXQueue (RXQueue w) w = w.
Proof. now destruct w. Qed.

Lemma set_RXQueue_twice q q' w :
  set_RXQueue q (set_RXQueue q' w) = set_RXQueue q w.
Proof. reflexivity. Qed.

(** [readLine] takes the first line off the queue, or drains a queue that
    holds no newline and waits. *)
Lemma readLine_loop_takeLine n w : forall q buffer,
  List.length q < n ->
  readLine_loop n buffer (set_RXQueue q w) =
  match takeLine q buffer with
  | Some (l, q') => Ret l (set_RXQueue q' w)
  | None => Blocked (set_RXQueue [] w)
  end.
Proof.
  induction n as [|n IH]; intros q buffer Hn; [inversion Hn|].
  destruct q as [|b q]; simpl.
  - reflexivity.
  - unfold bind, read; simpl.
    destruct (Ascii.eqb b LF); [reflexivity|].
    simpl in Hn.
    destruct (negb (Ascii.eqb b CR)); simpl;
      rewrite set_RXQueue_twice; apply IH; lia.
Qed.

Lemma readLine_takeLine w :
  readLine w =
  match takeLine (RXQueue w) [] with
  | Some (l, q') => Ret l (set_RXQueue q' w)
  | None => Blocked (set_RXQueue [] w)
  end.
Proof.
  unfold readLine.
  rewrite <- (set_RXQueue_same w) at 2.
  rewrite readLine_loop_takeLine by lia.
  destruct (takeLine (RXQueue w) []) as [[l q']|]; reflexivity.
Qed.

(** [consume] empties the queue. *)
Lemma consume_loop_drains n w : forall q,
  List.length q < n ->
  consume_loop n (set_RXQueue q w) = Ret tt (set_RXQueue [] w).
Proof.
  induction n as [|n IH]; intros q Hn; [inversion Hn|].
  destruct q as [|b q]; simpl.
  - reflexivity.
  - unfold bind, gets, read; simpl. rewrite set_RXQueue_twice.
    apply IH. simpl in Hn. lia.
Qed.

Lemma consume_drains w : consume w = Ret tt (set_RXQueue [] w).
Proof.
  unfold consume. rewrite <- (set_RXQueue_same w) at 2.
  now rewrite consume_loop_drains by lia.
Qed.


(* ----------------------------------------------------------------- *)
(** *** The Inspector *)

Lemma inspect_RXQueue b w : RXQueue (inspect b w) = RXQueue w ++ [b].
Proof.
  unfold inspect. destruct (Ascii.eqb b LF); [reflexivity|].
  destruct (negb (Ascii.eqb b CR)); reflexivity.
Qed.

Lemma inspector_RXQueue reads : forall w,
  RXQueue (inspector reads w) = RXQueue w ++ bytesRead reads.
Proof.
  induction reads as [|[|n b] reads IH]; intros w; simpl.
  - now rewrite app_nil_r.
  - now rewrite app_nil_r.
  - rewrite IH. destruct (0 <? n).
    + now rewrite inspect_RXQueue, <- app_assoc.
    + reflexivity.
Qed.

Lemma afterLastLF_none bs : hasLF bs = false -> afterLastLF bs = bs.
Proof.
  destruct bs as [|b bs]; simpl; [reflexivity|].
  intros H. apply orb_false_iff in H as [H1 H2].
  fold (hasLF bs). rewrite H2, Ascii.eqb_sym, H1. reflexivity.
Qed.

Lemma lineText_cons_CR bs : lineText (CR :: bs) = lineText bs.
Proof. reflexivity. Qed.

Lemma lineText_cons b bs :
  Ascii.eqb b CR = false -> lineText (b :: bs) = runeString b ++ lineText bs.
Proof. intros H. unfold lineText, Remove. simpl. now rewrite H. Qed.

Lemma inspect_line b w :
  line (inspect b w) =
  if Ascii.eqb b LF then []
  else if Ascii.eqb b CR then line w else line w ++ runeString b.
Proof.
  unfold inspect. destruct (Ascii.eqb b LF); [reflexivity|].
  destruct (Ascii.eqb b CR); reflexivity.
Qed.

Lemma inspector_line reads : forall w,
  line (inspector reads w) =
  (if hasLF (bytesRead reads) then [] else line w)
  ++ lineText (afterLastLF (bytesRead reads)).
Proof.
  induction reads as [|[|n b] reads IH]; intros w; simpl.
  - now rewrite app_nil_r.
  - now rewrite app_nil_r.
  - rewrite IH. destruct (0 <? n); [|reflexivity].
    rewrite inspect_line. cbn [app hasLF existsb afterLastLF].
    fold (hasLF (bytesRead reads)).
    destruct (hasLF (bytesRead reads)) eqn:Hlf.
    + now rewrite orb_true_r.
    + rewrite orb_false_r, (Ascii.eqb_sym LF b).
      rewrite (afterLastLF_none _ Hlf).
      destruct (Ascii.eqb b LF) eqn:Eb; [reflexivity|].
      destruct (Ascii.eqb b CR) eqn:Ec.
      * apply Ascii.eqb_eq in Ec. subst b. now rewrite lineText_cons_CR.
      * now rewrite lineText_cons, app_assoc.
Qed.

(** C6. Every byte the Inspector reads from the transport, carriage
    returns and newlines included, is sent to the RXQueue exactly once and
    in arrival order: after any run of reads the queue is the queue before
    followed by the bytes read.  The line kept for classification is the
    text after the last newline with the carriage returns left out; a
    carriage return alone leaves the line as it is and still goes to the
    queue. *)
Theorem inspector_forwards_every_byte (reads : list readResult) w :
  RXQueue (inspector reads w) = RXQueue w ++ bytesRead reads
  /\ line (inspector reads w) =
       (if hasLF (bytesRead reads) then [] else line w)
       ++ lineText (afterLastLF (bytesRead reads))
  /\ line (inspect CR w) = line w
  /\ RXQueue (inspect CR w) = RXQueue w ++ [CR]
  /\ RXQueue (inspect LF w) = RXQueue w ++ [LF].
Proof.
  split; [apply inspector_RXQueue|].
  split; [apply inspector_line|].
  repeat split; first [apply inspect_RXQueue | now rewrite inspect_line].
Qed.

(* ----------------------------------------------------------------- *)
(** *** The classifier *)

Lemma sublist_resetCauseTests l : sublist (resetCauseTests l) resetCauseEvents.
Proof.
  unfold resetCauseTests, resetCauseEvents.
  destruct (MatchString rePowerOnReset l), (MatchString reSoftwareReset l),
    (MatchString reDeepSleepReset l); simpl; intuition congruence.
Qed.

(** C1, amended.  On every newline the Inspector notifies the events of
    the reset-cause tests (none when the boot notifications are
    suppressed) followed by those of the error tests.  The three
    reset-cause tests are independent: each emits its event exactly when
    the line matches its own pattern, so what they emit is the reset-cause
    events in order with some left out, from none to all three.  The error
    tests emit exactly one of: nothing, the structured runtime error (when
    the structured pattern matches), the loose runtime error (when only
    the loose pattern matches).  Both families can fire on one line. *)
Theorem classifier_families :
  (forall w,
     notified (inspect LF w) =
     notified w ++ (if disableInspectorBootNotify w then []
                    else resetCauseTests (line w)) ++ errorTests (line w))
  /\ (forall l,
        sublist (resetCauseTests l) resetCauseEvents
        /\ (In (B "boardPowerOnReset", []) (resetCauseTests l)
            <-> MatchString rePowerOnReset l = true)
        /\ (In (B "boardSoftwareReset", []) (resetCauseTests l)
            <-> MatchString reSoftwareReset l = true)
        /\ (In (B "boardDeepSleepReset", []) (resetCauseTests l)
            <-> MatchString reDeepSleepReset l = true))
  /\ (forall l,
        (MatchString reStructuredError l = true
         /\ errorTests l = [(B "boardRuntimeError", structuredInfo l)])
        \/ (MatchString reStructuredError l = false
            /\ MatchString reLooseError l = true
            /\ errorTests l = [(B "boardRuntimeError", looseInfo l)])
        \/ (MatchString reStructuredError l = false
            /\ MatchString reLooseError l = false
            /\ errorTests l = []))
  /\ (exists l, resetCauseTests l = [(B "boardPowerOnReset", [])]
                /\ errorTests l = [(B "boardRuntimeError", looseInfo l)]).
Proof.
  split; [|split; [|split]].
  - intros w. unfold inspect, classify. simpl.
    now destruct (disableInspectorBootNotify w).
  - intros l. split; [apply sublist_resetCauseTests|].
    unfold resetCauseTests.
    destruct (MatchString rePowerOnReset l), (MatchString reSoftwareReset l),
      (MatchString reDeepSleepReset l); simpl;
      repeat split; intros H; try discriminate; try tauto;
      repeat (destruct H as [H|H]; try discriminate H); try contradiction.
  - intros l. unfold errorTests.
    destruct (MatchString reStructuredError l); [now left|].
    destruct (MatchString reLooseError l); [right; left|right; right]; auto.
  - exists (B "rst::(POWERON_RESET),boot:"). split; vm_compute; reflexivity.
Qed.

(* ----------------------------------------------------------------- *)
(** *** Detach *)

(** C8. [detach] always clears the active board reference, whatever its
    receiver; after one or more calls in a row the reference is nil as
    after a single call, and a second call on the same receiver changes
    nothing at all. *)
Theorem detach_clears_active_board (board : boardRef) (more : list boardRef) w :
  connectedBoard (detach board w) = nilBoard
  /\ connectedBoard (fold_left (fun s b => detach b s) more (detach board w))
     = connectedBoard (detach board w)
  /\ detach board (detach board w) = detach board w.
Proof.
  split; [reflexivity|]. split.
  - change (connectedBoard (detach board w)) with nilBoard.
    assert (Hs : connectedBoard (detach board w) = nilBoard) by reflexivity.
    revert Hs. generalize (detach board w).
    induction more as [|b more IH]; intros s Hs; simpl.
    + exact Hs.
    + now apply IH.
  - now destruct board.
Qed.

(* ----------------------------------------------------------------- *)
(** *** The probes *)

(** C10. [isBooting] answers true for exactly three reply lines, pairwise
    different, one of which is the running banner; [isRunning] answers
    true for the running banner only.  So a board that replies with the
    running banner satisfies the booting poll at once. *)
Theorem isBooting_accepts_running_banner w (reply : bytes) w' :
  readLine (portWrite dev_byte [EOT] w) = Ret reply w' ->
  (exists b, isBooting dev_byte w = Ret b w'
             /\ (b = true <->
                 reply = B "Lua RTOS-booting-ESP32"
                 \/ reply = B "Lua RTOS-boot-scripts-aborted-ESP32"
                 \/ reply = B "Lua RTOS-running-ESP32"))
  /\ (exists b, isRunning dev_byte w = Ret b w'
                /\ (b = true <-> reply = B "Lua RTOS-running-ESP32"))
  /\ (reply = B "Lua RTOS-running-ESP32" -> isBooting dev_byte w = Ret true w')
  /\ NoDup [B "Lua RTOS-booting-ESP32"; B "Lua RTOS-boot-scripts-aborted-ESP32";
            B "Lua RTOS-running-ESP32"].
Proof.
  intros H. unfold isBooting, isRunning, bind, act. rewrite H. unfold ret.
  repeat split.
  - eexists; split; [reflexivity|].
    rewrite !orb_true_iff, !beq_true_iff. tauto.
  - eexists; split; [reflexivity|]. apply beq_true_iff.
  - intros ->. reflexivity.
  - repeat constructor; simpl; intuition discriminate.
Qed.


(* ----------------------------------------------------------------- *)
(** *** Sequencing *)

Lemma bind_Ret {A C : Type} (m : M D A) (k : A -> M D C) w c w' :
  bind m k w = Ret c w' ->
  exists a w1, m w = Ret a w1 /\ k a w1 = Ret c w'.
Proof.
  unfold bind. destruct (m w) as [a w1| |]; try discriminate. eauto.
Qed.

Lemma bind_act {C : Type} (f : World D -> World D) (k : unit -> M D C) w :
  bind (act f) k w = k tt (f w).
Proof. reflexivity. Qed.

Lemma bind_gets {A C : Type} (f : World D -> A) (k : A -> M D C) w :
  bind (gets f) k w = k (f w) w.
Proof. reflexivity. Qed.

Lemma bind_eq {A C : Type} (m : M D A) (k : A -> M D C) w a w1 :
  m w = Ret a w1 -> bind m k w = k a w1.
Proof. unfold bind. now intros ->. Qed.

(* ----------------------------------------------------------------- *)
(** *** What the Inspector leaves alone *)

(** The Inspector changes the line, the notifications and the queue, and
    nothing else. *)
Lemma inspector_frame (reads : list readResult) : forall w,
  exists q l ns,
    inspector reads w = set_RXQueue q (set_line l (set_notified ns w)).
Proof.
  induction reads as [|[|n b] reads IH]; intros w; simpl.
  - exists (RXQueue w), (line w), (notified w). now destruct w.
  - exists (RXQueue w), (line w), (notified w). now destruct w.
  - destruct (IH (if 0 <? n then inspect b w else w)) as (q & l & ns & ->).
    exists q, l, ns. destruct (0 <? n); [|reflexivity].
    unfold inspect. destruct (Ascii.eqb b LF); [reflexivity|].
    destruct (negb (Ascii.eqb b CR)); reflexivity.
Qed.

Lemma receive_frame (out : bytes) w :
  exists q l ns, receive out w = set_RXQueue q (set_line l (set_notified ns w)).
Proof. apply inspector_frame. Qed.

Lemma receive_written out w : written (receive out w) = written w.
Proof. destruct (receive_frame out w) as (q & l & ns & ->). reflexivity. Qed.

Lemma receive_chunkSize out w : chunkSize (receive out w) = chunkSize w.
Proof. destruct (receive_frame out w) as (q & l & ns & ->). reflexivity. Qed.

Lemma portWrite_written bs w : written (portWrite dev_byte bs w) = written w ++ [bs].
Proof.
  unfold portWrite. destruct (port_open w); [|reflexivity].
  destruct (dev_bytes _ _ _) as [d out]. now rewrite receive_written.
Qed.

Lemma portWrite_chunkSize bs w : chunkSize (portWrite dev_byte bs w) = chunkSize w.
Proof.
  unfold portWrite. destruct (port_open w); [|reflexivity].
  destruct (dev_bytes _ _ _) as [d out]. now rewrite receive_chunkSize.
Qed.

(** [readLine] changes the queue and nothing else. *)
Lemma readLine_Ret w l w' :
  readLine w = Ret l w' -> exists q, w' = set_RXQueue q w.
Proof.
  rewrite readLine_takeLine.
  destruct (takeLine _ _) as [[l' q']|]; [|discriminate].
  intros H. injection H as _ <-. now exists q'.
Qed.

(* ----------------------------------------------------------------- *)
(** *** The directory listing *)

Lemma join_snoc (sep : bytes) (ls : list bytes) (x : bytes) :
  join sep (ls ++ [x]) =
  match ls with [] => x | _ :: _ => join sep ls ++ sep ++ x end.
Proof.
  induction ls as [|l ls IH]; [reflexivity|].
  destruct ls as [|l' ls]; [reflexivity|].
  change (join sep ((l :: l' :: ls) ++ [x]))
    with (l ++ sep ++ join sep ((l' :: ls) ++ [x])).
  rewrite IH. change (join sep (l :: l' :: ls)) with (l ++ sep ++ join sep (l' :: ls)).
  now rewrite <- !app_assoc.
Qed.

Lemma join_nil_inv (sep : bytes) (ls : list bytes) :
  Forall (fun l => l <> []) ls -> join sep ls = [] -> ls = [].
Proof.
  intros H. destruct H as [|l ls Hl Hls]; [reflexivity|].
  destruct ls; simpl; intros E.
  - contradiction.
  - apply app_eq_nil in E as [E _]. contradiction.
Qed.

Lemma dirObject_not_nil (element : list bytes) : dirObject element <> [].
Proof. discriminate. Qed.

Lemma dirLine_eq (content l : bytes) :
  dirLine content l =
  if fourFields (fields l)
  then (if negb (beq content []) then content ++ B "," else content)
       ++ dirObject (fields l)
  else content.
Proof. reflexivity. Qed.

Lemma fold_dirLine (ls : list bytes) : forall objs : list bytes,
  Forall (fun o => o <> []) objs ->
  fold_left dirLine ls (join (B ",") objs) =
  join (B ",") (objs ++ map dirObject (filter fourFields (map fields ls))).
Proof.
  induction ls as [|l ls IH]; intros objs Hobjs; simpl fold_left.
  - simpl. now rewrite app_nil_r.
  - rewrite dirLine_eq. simpl map. simpl filter.
    destruct (fourFields (fields l)); [|now apply IH].
    simpl map.
    replace (objs ++ dirObject (fields l) :: map dirObject (filter fourFields (map fields ls)))
      with ((objs ++ [dirObject (fields l)]) ++ map dirObject (filter fourFields (map fields ls)))
      by now rewrite <- app_assoc.
    rewrite <- IH.
    + f_equal. rewrite join_snoc. change [","%char] with (B ",").
      assert (E : beq (join (B ",") objs) [] =
                  match objs with [] => true | _ :: _ => false end).
      { destruct objs as [|o objs]; [reflexivity|].
        apply beq_false_iff. intros E.
        apply join_nil_inv in E; [discriminate|assumption]. }
      rewrite E. destruct objs as [|o objs]; [reflexivity|].
      cbv beta iota delta [negb]. symmetry. apply app_assoc.
    + apply Forall_app; split; [assumption|].
      constructor; [apply dirObject_not_nil|constructor].
Qed.

(** C7. [getDirContent] turns each response line that splits into exactly
    four tab-delimited fields into an object with the keys type, size,
    date and name, and skips every other line; the example body gives two
    elements, [badline] being skipped. *)
Theorem getDirContent_keeps_four_field_lines :
  (forall response,
     dirContent response =
     B "[" ++ join (B ",") (map dirObject (dirElements response)) ++ B "]")
  /\ (forall n path w,
        getDirContent dev_byte n path w =
        match sendCommand dev_byte n (Q "os.ls('" ++ path ++ Q "')") w with
        | Ret response w' => Ret (dirContent response) w'
        | Blocked w' => Blocked w'
        | Timeout => Timeout
        end)
  /\ dirElements exampleListing =
     [[B "f"; B "10"; B "2024-01-01"; B "a.lua"];
      [B "d"; B "0"; B "2024-01-01"; B "sub"]]
  /\ dirContent exampleListing =
     Q "[{'type': 'f','size': '10','date': '2024-01-01','name': 'a.lua'},{'type': 'd','size': '0','date': '2024-01-01','name': 'sub'}]".
Proof.
  split; [|split; [|split]].
  - intros response. unfold dirContent, dirElements.
    change (@nil ascii) with (join (B ",") []) at 1.
    rewrite fold_dirLine by constructor. reflexivity.
  - reflexivity.
  - vm_compute. reflexivity.
  - vm_compute. reflexivity.
Qed.

(* ----------------------------------------------------------------- *)
(** *** Echo verification *)

Lemma sendCommand_echo_mismatch n command w (echo : bytes) w' :
  readLine (portWrite dev_byte (command ++ [CR; LF]) w) = Ret echo w' ->
  echo <> command ->
  sendCommand dev_byte n command w = Ret [] w'.
Proof.
  intros H Hne. unfold sendCommand. rewrite bind_act, (bind_eq _ _ _ _ _ H).
  apply beq_false_iff in Hne. now rewrite Hne.
Qed.

Lemma readFile_echo_mismatch n path w (echo : bytes) w' :
  readLine (portWrite dev_byte ((Q "io.send('" ++ path ++ Q "')") ++ [CR]) w)
  = Ret echo w' ->
  echo <> Q "io.send('" ++ path ++ Q "')" ->
  readFile dev_byte n path w = Ret None w'.
Proof.
  intros H Hne. unfold readFile, bind, act. cbv zeta beta. rewrite H.
  apply beq_false_iff in Hne. now rewrite Hne.
Qed.

(** C4. When the echoed line differs from the line sent, the operation
    gives an empty or absent result and nothing partial: [sendCommand]
    returns the empty string in the state the echo was read in, no further
    line being read, and [readFile] returns nil in that state, no chunk
    being asked for or read. *)
Theorem echo_mismatch_gives_nothing n (command path echo : bytes) w w' :
  (readLine (portWrite dev_byte (command ++ [CR; LF]) w) = Ret echo w' ->
   echo <> command ->
   sendCommand dev_byte n command w = Ret [] w')
  /\ (readLine (portWrite dev_byte ((Q "io.send('" ++ path ++ Q "')") ++ [CR]) w)
      = Ret echo w' ->
      echo <> Q "io.send('" ++ path ++ Q "')" ->
      readFile dev_byte n path w = Ret None w'
      /\ written w' = written w ++ [(Q "io.send('" ++ path ++ Q "')") ++ [CR]]).
Proof.
  split.
  - apply sendCommand_echo_mismatch.
  - intros H Hne. split; [now apply readFile_echo_mismatch with (echo := echo)|].
    apply readLine_Ret in H as [q ->]. simpl. apply portWrite_written.
Qed.


(* ----------------------------------------------------------------- *)
(** *** Reset and attach *)

Lemma reset_returns_true n w (b : bool) w' :
  reset dev_byte dev_ctl n w = Ret b w' -> b = true.
Proof.
  unfold reset. rewrite !bind_act. intros H.
  apply bind_Ret in H as (? & w1 & _ & H).
  apply bind_Ret in H as (? & w2 & _ & H).
  apply bind_Ret in H as (? & w3 & _ & H).
  rewrite bind_gets in H.
  apply bind_Ret in H as (? & w4 & _ & H).
  apply bind_Ret in H as (i & w5 & _ & H).
  rewrite bind_act in H. now injection H.
Qed.

Lemma attach_Ret n name w (b : bool) w' :
  attach dev_byte dev_ctl n name w = Ret b w' ->
  (canOpen name w = false /\ b = false /\ w' = w)
  \/ (canOpen name w = true /\ b = true
      /\ exists w1, reset dev_byte dev_ctl n (opened w) = Ret true w1
                    /\ w' = notify (B "boardAttached") []
                              (set_connectedBoard thisBoard w1)).
Proof.
  unfold attach. rewrite bind_gets.
  destruct (canOpen name w) eqn:Hopen; cbv beta iota delta [negb].
  - rewrite !bind_act. fold (opened w). intros H.
    apply bind_Ret in H as (ok & w1 & Hreset & H).
    pose proof (reset_returns_true _ _ _ _ Hreset) as ->.
    rewrite !bind_act in H. injection H as <- <-.
    right. repeat split. now exists w1.
  - intros H. injection H as <- <-. now left.
Qed.

(** C9. [reset] has no failure path: whenever it returns, it returns true.
    So [attach] returns false only when the transport cannot be opened
    (and then leaves everything as it was), and whenever the transport
    opens and the reset returns, the board is the active board and the
    attached notification is the last one emitted. *)
Theorem reset_has_no_failure_path :
  (forall n w (b : bool) w',
     reset dev_byte dev_ctl n w = Ret b w' -> b = true)
  /\ (forall n name w (b : bool) w',
        attach dev_byte dev_ctl n name w = Ret b w' ->
        (b = false <-> canOpen name w = false)
        /\ (canOpen name w = false -> w' = w)
        /\ (canOpen name w = true ->
            b = true
            /\ connectedBoard w' = thisBoard
            /\ exists earlier,
                 notified w' = earlier ++ [(B "boardAttached", [])])).
Proof.
  split; [exact reset_returns_true|].
  intros n name w b w' H.
  destruct (attach_Ret _ _ _ _ _ H) as [(Ho & -> & ->)|(Ho & -> & w1 & _ & ->)];
    rewrite Ho.
  - repeat split; try reflexivity; discriminate.
  - split; [split; discriminate|]. split; [discriminate|].
    intros _. repeat split. now exists (notified w1).
Qed.

(* ----------------------------------------------------------------- *)
(** *** The response of a command *)

Lemma sendCommand_loop_lines n : forall response w,
  sendCommand_loop n response w =
  (ls <- linesUntilPrompt n ;; ret (fold_left addLine ls response)) w.
Proof.
  induction n as [|n IH]; intros response w; [reflexivity|].
  simpl. unfold bind.
  destruct (readLine w) as [l w1| |]; [|reflexivity..].
  destruct (isPrompt l); [reflexivity|].
  fold (addLine response l). rewrite IH. unfold bind, ret.
  destruct (linesUntilPrompt n w1); reflexivity.
Qed.

Lemma fold_addLine_nonempty (ls : list bytes) : forall r : bytes,
  r <> [] -> fold_left addLine ls r = join [CR; LF] (r :: ls).
Proof.
  induction ls as [|l ls IH]; intros r Hr; [reflexivity|].
  simpl fold_left. unfold addLine at 2.
  apply beq_false_iff in Hr. rewrite Hr. simpl negb. cbv iota.
  rewrite IH.
  - destruct ls as [|l' ls]; simpl; now rewrite <- ?app_assoc.
  - destruct r; [now rewrite beq_refl in Hr|discriminate].
Qed.

Lemma fold_addLine_dropEmpty (ls : list bytes) :
  fold_left addLine ls [] = join [CR; LF] (dropEmpty ls).
Proof.
  induction ls as [|l ls IH]; [reflexivity|].
  simpl. destruct (beq l []) eqn:E.
  - apply beq_true_iff in E. subst l. exact IH.
  - apply beq_false_iff in E. unfold addLine at 2. simpl.
    now apply fold_addLine_nonempty.
Qed.

Lemma linesUntilPrompt_no_prompt n : forall w ls w',
  linesUntilPrompt n w = Ret ls w' ->
  Forall (fun l => isPrompt l = false) ls.
Proof.
  induction n as [|n IH]; intros w ls w' H; [discriminate|].
  simpl in H. apply bind_Ret in H as (l & w1 & _ & H).
  destruct (isPrompt l) eqn:E.
  - injection H as <- _. constructor.
  - apply bind_Ret in H as (ls' & w2 & H' & H).
    injection H as <- _. constructor; [assumption|]. now apply IH in H'.
Qed.

(** What [sendCommand] returns on any response: the lines before the
    prompt, joined, less the empty lines the response starts with. *)
Lemma sendCommand_response n (command : bytes) w w1 (ls : list bytes) w2 :
  readLine (portWrite dev_byte (command ++ [CR; LF]) w) = Ret command w1 ->
  linesUntilPrompt n w1 = Ret ls w2 ->
  sendCommand dev_byte n command w = Ret (join [CR; LF] (dropEmpty ls)) w2.
Proof.
  intros Hecho Hls.
  unfold sendCommand. rewrite bind_act, (bind_eq _ _ _ _ _ Hecho), beq_refl.
  rewrite sendCommand_loop_lines, (bind_eq _ _ _ _ _ Hls).
  unfold ret. now rewrite fold_addLine_dropEmpty.
Qed.

Lemma dropEmpty_same (ls : list bytes) : hd_error ls <> Some [] -> dropEmpty ls = ls.
Proof.
  destruct ls as [|l ls]; [reflexivity|]. simpl. intros H.
  destruct (beq l []) eqn:E; [|reflexivity].
  apply beq_true_iff in E. subst l. now contradiction H.
Qed.

(** C5, amended.  When the echo matches and the response does not start
    with an empty line, [sendCommand] returns exactly the response lines
    read before the first line that matches the prompt pattern, joined by
    a carriage return and newline; the prompt line is read and is no part
    of the result. *)
Theorem sendCommand_returns_response n (command : bytes) w w1
    (ls : list bytes) w2 :
  readLine (portWrite dev_byte (command ++ [CR; LF]) w) = Ret command w1 ->
  linesUntilPrompt n w1 = Ret ls w2 ->
  hd_error ls <> Some [] ->
  sendCommand dev_byte n command w = Ret (join [CR; LF] ls) w2
  /\ Forall (fun l => isPrompt l = false) ls.
Proof.
  intros Hecho Hls Hhd. split; [|now apply linesUntilPrompt_no_prompt in Hls].
  rewrite (sendCommand_response _ _ _ _ _ _ Hecho Hls).
  now rewrite dropEmpty_same.
Qed.


(* ----------------------------------------------------------------- *)
(** *** Chunks *)

Lemma chunks_fuel (size : nat) : 1 <= size ->
  forall f1 f2 (buffer : bytes),
    List.length buffer <= f1 -> List.length buffer <= f2 ->
    chunks f1 size buffer = chunks f2 size buffer.
Proof.
  intros Hs. induction f1 as [|f1 IH]; intros f2 buffer H1 H2.
  - destruct buffer; [|simpl in H1; lia]. now destruct f2.
  - destruct buffer as [|b buffer]; [now destruct f2|].
    destruct f2 as [|f2]; [simpl in H2; lia|].
    cbn [chunks]. f_equal.
    assert (List.length (skipn size (b :: buffer)) <= List.length buffer).
    { rewrite length_skipn. cbn [List.length]. lia. }
    cbn [List.length] in H1, H2. apply IH; lia.
Qed.

Lemma chunksOf_nil (size : nat) : chunksOf size [] = [].
Proof. reflexivity. Qed.

Lemma chunksOf_cons (size : nat) (buffer : bytes) :
  1 <= size -> buffer <> [] ->
  chunksOf size buffer = firstn size buffer :: chunksOf size (skipn size buffer).
Proof.
  intros Hs Hne. unfold chunksOf.
  destruct buffer as [|b buffer]; [contradiction|].
  cbn [List.length chunks]. f_equal.
  apply chunks_fuel; [assumption| |lia].
  rewrite length_skipn. cbn [List.length]. lia.
Qed.

Lemma chunks_concat (size : nat) : 1 <= size ->
  forall fuel (buffer : bytes),
    List.length buffer <= fuel -> List.concat (chunks fuel size buffer) = buffer.
Proof.
  intros Hs. induction fuel as [|fuel IH]; intros buffer H.
  - destruct buffer; [reflexivity|simpl in H; lia].
  - destruct buffer as [|b buffer]; [reflexivity|].
    cbn [chunks List.concat]. rewrite IH.
    + apply firstn_skipn.
    + rewrite length_skipn. cbn [List.length] in *. lia.
Qed.

Lemma chunks_lengths (size : nat) : 1 <= size ->
  forall fuel (buffer : bytes),
    Forall (fun c => 1 <= List.length c <= size) (chunks fuel size buffer).
Proof.
  intros Hs. induction fuel as [|fuel IH]; intros buffer; [constructor|].
  destruct buffer as [|b buffer]; [constructor|].
  cbn [chunks]. constructor; [|apply IH].
  rewrite length_firstn. simpl List.length. lia.
Qed.

Lemma byte_small (n : nat) : n <= 255 -> nat_of_ascii (byte (Z.of_nat n)) = n.
Proof.
  intros H. unfold byte, nat_of_ascii.
  rewrite Z.mod_small by lia.
  rewrite N_ascii_embedding by lia.
  rewrite Z_N_nat. apply Nat2Z.id.
Qed.

Lemma chunkLen_min (cs len outIndex : Z) :
  chunkLen cs len outIndex =
  (if outIndex <? len then Z.min cs (len - outIndex) else 0)%Z.
Proof.
  unfold chunkLen. destruct (outIndex <? len)%Z; [|reflexivity].
  destruct (Z.ltb_spec (outIndex + cs - 1) len); lia.
Qed.

(* ----------------------------------------------------------------- *)
(** *** The writes of a push *)

Lemma pushWrites_nil (size : nat) : pushWrites size [] = [[byte 0]].
Proof. reflexivity. Qed.

Lemma pushWrites_cons (size : nat) (buffer : bytes) :
  1 <= size -> buffer <> [] ->
  pushWrites size buffer =
  [byte (Z.of_nat (List.length (firstn size buffer)))] :: firstn size buffer
    :: pushWrites size (skipn size buffer).
Proof.
  intros Hs Hne. unfold pushWrites. now rewrite chunksOf_cons.
Qed.

(** One turn of the loop of [writeFile] on a ready line. *)
Lemma writeFile_loop_ready n (buffer : bytes) (outIndex : Z) w w1 :
  readLine w = Ret (B "C") w1 ->
  writeFile_loop dev_byte (S n) buffer outIndex w =
  let outLen := chunkLen (chunkSize w1) (Z.of_nat (List.length buffer)) outIndex in
  let w2 := portWrite dev_byte [byte outLen] w1 in
  if (0 <? outLen)%Z then
    writeFile_loop dev_byte n buffer (outIndex + outLen)%Z
      (portWrite dev_byte (slice buffer outIndex (outIndex + outLen)%Z) w2)
  else Ret tt w2.
Proof.
  intros H. cbn [writeFile_loop]. rewrite (bind_eq _ _ _ _ _ H).
  cbv zeta. rewrite beq_refl, bind_gets, bind_act.
  destruct (0 <? _)%Z; [now rewrite bind_act|reflexivity].
Qed.

Lemma writeFile_loop_writes (buffer : bytes) n : forall (outIndex : Z) w w',
  (1 <= chunkSize w)%Z ->
  (0 <= outIndex <= Z.of_nat (List.length buffer))%Z ->
  writeFile_loop dev_byte n buffer outIndex w = Ret tt w' ->
  written w' =
  written w ++ pushWrites (Z.to_nat (chunkSize w)) (skipn (Z.to_nat outIndex) buffer).
Proof.
  induction n as [|n IH]; intros outIndex w w' Hcs Hidx H; [discriminate|].
  destruct (readLine w) as [l w1| |] eqn:Hl;
    [|cbn [writeFile_loop] in H; unfold bind in H; rewrite Hl in H; discriminate..].
  destruct (readLine_Ret _ _ _ Hl) as [q Hw1].
  assert (Hcs1 : chunkSize w1 = chunkSize w) by now subst w1.
  assert (Hwr1 : written w1 = written w) by now subst w1.
  destruct (beq l (B "C")) eqn:El.
  - apply beq_true_iff in El. subst l.
    rewrite (writeFile_loop_ready _ _ _ _ _ Hl) in H. cbv zeta in H.
    rewrite chunkLen_min, Hcs1 in H.
    set (len := Z.of_nat (List.length buffer)) in *.
    set (rest := skipn (Z.to_nat outIndex) buffer).
    assert (Hrest : Z.of_nat (List.length rest) = (len - outIndex)%Z).
    { unfold rest. rewrite length_skipn. unfold len. lia. }
    destruct (Z.ltb_spec outIndex len) as [Hlt|Hge].
    + set (outLen := Z.min (chunkSize w) (len - outIndex)) in *.
      assert (Hpos : (0 <? outLen)%Z = true) by (apply Z.ltb_lt; lia).
      rewrite Hpos in H. apply IH in H.
      * rewrite H, !portWrite_chunkSize, !portWrite_written, Hcs1, Hwr1.
        rewrite <- !app_assoc. f_equal.
        rewrite (pushWrites_cons _ rest) by (try lia; intros E; rewrite E in Hrest; simpl in Hrest; lia).
        assert (Hchunk : slice buffer outIndex (outIndex + outLen) =
                         firstn (Z.to_nat (chunkSize w)) rest).
        { unfold slice. fold rest.
          replace (outIndex + outLen - outIndex)%Z with outLen by lia.
          destruct (Z.le_ge_cases (chunkSize w) (len - outIndex)).
          - now replace outLen with (chunkSize w) by lia.
          - rewrite !firstn_all2 by lia. reflexivity. }
        rewrite Hchunk. simpl app. f_equal.
        { f_equal. f_equal. rewrite length_firstn. lia. }
        unfold rest. rewrite skipn_skipn. f_equal.
        destruct (Z.le_ge_cases (chunkSize w) (len - outIndex)).
        -- do 2 f_equal. unfold outLen. lia.
        -- rewrite !skipn_all2; [reflexivity|unfold outLen, len in *; lia..].
      * now rewrite !portWrite_chunkSize, Hcs1.
      * lia.
    + assert (Hpos : (0 <? 0)%Z = false) by reflexivity.
      rewrite Hpos in H. injection H as <-.
      rewrite portWrite_written, Hwr1. f_equal.
      assert (rest = []) as ->; [|reflexivity].
      apply length_zero_iff_nil. lia.
  - cbn [writeFile_loop] in H. rewrite (bind_eq _ _ _ _ _ Hl), El in H.
    apply IH in H; [|now rewrite Hcs1|assumption].
    now rewrite H, Hcs1, Hwr1.
Qed.

(** C3. In [writeFile] the chunk length computed on a ready line is the
    smaller of the chunk size and the bytes that remain, and 0 once the
    buffer is exhausted; a turn of the loop sends that length and that
    many bytes from the cursor and moves the cursor by that length.  So a
    push that runs to its end has written, after the command, the chunks
    of the buffer in order, each after its length byte, and a zero length
    byte; the chunks put together are the buffer. *)
Theorem writeFile_sends_buffer_in_chunks :
  (forall cs len outIndex : Z,
     chunkLen cs len outIndex =
     (if outIndex <? len then Z.min cs (len - outIndex) else 0)%Z)
  /\ (forall n (buffer : bytes) (outIndex : Z) w w1,
        readLine w = Ret (B "C") w1 ->
        writeFile_loop dev_byte (S n) buffer outIndex w =
        let outLen :=
          chunkLen (chunkSize w1) (Z.of_nat (List.length buffer)) outIndex in
        let w2 := portWrite dev_byte [byte outLen] w1 in
        if (0 <? outLen)%Z then
          writeFile_loop dev_byte n buffer (outIndex + outLen)%Z
            (portWrite dev_byte (slice buffer outIndex (outIndex + outLen)%Z) w2)
        else Ret tt w2)
  /\ (forall n (path buffer : bytes) w w1 w',
        (1 <= chunkSize w)%Z ->
        readLine (portWrite dev_byte ((Q "io.receive('" ++ path ++ Q "')") ++ [CR]) w)
        = Ret (Q "io.receive('" ++ path ++ Q "')") w1 ->
        writeFile dev_byte n path buffer w = Ret tt w' ->
        written w' =
        written w ++ [(Q "io.receive('" ++ path ++ Q "')") ++ [CR]]
        ++ pushWrites (Z.to_nat (chunkSize w)) buffer)
  /\ (forall (size : nat) (buffer : bytes),
        1 <= size ->
        List.concat (chunksOf size buffer) = buffer
        /\ Forall (fun c => 1 <= List.length c <= size) (chunksOf size buffer)
        /\ (size <= 255 ->
            Forall (fun c => nat_of_ascii (byte (Z.of_nat (List.length c)))
                             = List.length c) (chunksOf size buffer))).
Proof.
  split; [exact chunkLen_min|]. split; [exact writeFile_loop_ready|]. split.
  - intros n path buffer w w1 w' Hcs Hecho H.
    unfold writeFile in H. cbv zeta in H.
    rewrite bind_act, (bind_eq _ _ _ _ _ Hecho), beq_refl in H.
    apply bind_Ret in H as ([] & w2 & Hloop & H).
    rewrite consume_drains in H. injection H as <-.
    destruct (readLine_Ret _ _ _ Hecho) as [q Hw1].
    apply writeFile_loop_writes in Hloop.
    + cbn [written set_RXQueue]. rewrite Hloop. subst w1.
      cbn [written chunkSize set_RXQueue].
      now rewrite portWrite_written, portWrite_chunkSize, <- app_assoc.
    + subst w1. cbn [chunkSize set_RXQueue]. now rewrite portWrite_chunkSize.
    + lia.
  - intros size buffer Hs. split; [now apply chunks_concat|].
    split; [now apply chunks_lengths|].
    intros H255. eapply Forall_impl; [|now apply chunks_lengths].
    intros c Hc. apply byte_small. simpl in Hc. lia.
Qed.

End Facts.

(* ================================================================= *)
(** ** Transfers with the simulated board *)

Section Transfer.

Import Sim.

Implicit Types (w : World state) (fs : list (bytes * bytes)).

(* ----------------------------------------------------------------- *)
(** *** The host's primitives, seen through [At] *)







(* ----------------------------------------------------------------- *)
(** *** Lines of printable bytes *)






(* ----------------------------------------------------------------- *)
(** *** Recognising the commands *)








(* ----------------------------------------------------------------- *)
(** *** The board taking a file *)






(* ----------------------------------------------------------------- *)
(** *** Slices of the buffer *)



(* ----------------------------------------------------------------- *)
(** *** The push *)




(* ----------------------------------------------------------------- *)
(** *** The pull *)








End Transfer.

(* ================================================================= *)
(** ** Worked instances *)

(** Every pattern of [board.go] compiles. *)
Definition compiles (pattern : string) : bool :=
  match parse (S (String.length pattern)) (B pattern) 1 [] with
  | Some (_, [], _) => true
  | _ => false
  end.

Lemma patterns_compile :
  forallb compiles
    ["^rst:.*\(POWERON_RESET\),boot:.*(.*)$";
     "^rst:.*(SW_CPU_RESET),boot:.*(.*)$";
     "^rst:.*(DEEPSLEEP_RESET),boot.*(.*)$";
     "^([a-zA-Z]*):(\d*)\:\s(\d*)\:(.*)$";
     "^([a-zA-Z]*)\:(\d*)\:\s*(.*)$";
     "^/.*>.*$"]%string = true.
Proof. vm_compute. reflexivity. Qed.

(** The classifier on lines a board prints. *)
Example classify_power_on_line :
  classify false (B "rst:0x1 (POWERON_RESET),boot:0x13 (SPI_FAST_FLASH_BOOT)")
  = [(B "boardPowerOnReset", [])].
Proof. vm_compute. reflexivity. Qed.

Example classify_runtime_errors :
  classify false (B "main:12: 3:boom")
  = [(B "boardRuntimeError",
      Q "'where': 'main', 'line': '12', 'exception': '3', 'message': 'boom'")]
  /\ classify false (B "main:12:   boom")
     = [(B "boardRuntimeError",
         Q "'where': 'main', 'line': '12', 'exception': '0', 'message': 'boom'")]
  /\ isPrompt (B "/ > ") = true
  /\ isPrompt (B "/examples/lua > ") = true
  /\ isPrompt (B "Lua RTOS-running-ESP32") = false.
Proof. repeat split; vm_compute; reflexivity. Qed.

(** C1, as stated, fails: on this line two of the reset-cause tests fire,
    and the Inspector notifies a power-on reset and a software reset for
    the one line. *)
Lemma two_reset_causes_on_one_line :
  resetCauseTests (B "rst:(POWERON_RESET),boot:SW_CPU_RESET,boot:")
  = [(B "boardPowerOnReset", []); (B "boardSoftwareReset", [])]
  /\ notified
       (inspector
          (map (ReadOk 1) (B "rst:(POWERON_RESET),boot:SW_CPU_RESET,boot:" ++ [LF]))
          (Sim.session [] 255))
     = [(B "boardPowerOnReset", []); (B "boardSoftwareReset", [])]
  /\ ~ (exists e, resetCauseTests (B "rst:(POWERON_RESET),boot:SW_CPU_RESET,boot:")
                  = [e])
  /\ resetCauseTests (B "rst:(POWERON_RESET),boot:SW_CPU_RESET,boot:") <> [].
Proof.
  assert (E : resetCauseTests (B "rst:(POWERON_RESET),boot:SW_CPU_RESET,boot:")
              = [(B "boardPowerOnReset", []); (B "boardSoftwareReset", [])])
    by (vm_compute; reflexivity).
  split; [exact E|]. split; [vm_compute; reflexivity|].
  rewrite E. split; [intros [e He]; discriminate He|discriminate].
Qed.


(** The round trip run on the boundary lengths 0, 1, 254, 255 and 256 with
    the chunk size 255 of an attached board. *)
Definition roundTrip (buffer : bytes) : bool :=
  match (writeFile Sim.step 300 (B "/main.lua") buffer ;;
         readFile Sim.step 300 (B "/main.lua")) (Sim.session [] 255) with
  | Ret r _ => beq (sliceBytes r) buffer
  | _ => false
  end.

Example round_trip_boundaries :
  forallb (fun len => roundTrip (repeat "x"%char len)) [0; 1; 254; 255; 256]
  = true.
Proof. vm_compute. reflexivity. Qed.


(** A board that replies to the probe with the running banner. *)
Lemma running_banner_witness :
  exists w',
    readLine (portWrite Sim.step [EOT] (Sim.session [] 255))
    = Ret (B "Lua RTOS-running-ESP32") w'
    /\ isBooting Sim.step (Sim.session [] 255) = Ret true w'
    /\ isRunning Sim.step (Sim.session [] 255) = Ret true w'.
Proof.
  eexists. split; [vm_compute; reflexivity|].
  match goal with
  | |- isBooting _ _ = Ret true ?w' /\ _ =>
      assert (H : readLine (portWrite Sim.step [EOT] (Sim.session [] 255))
                  = Ret (B "Lua RTOS-running-ESP32") w')
        by (vm_compute; reflexivity);
      destruct (isBooting_accepts_running_banner Sim.step _ _ _ H)
        as (_ & (b & Hrun & Hb) & Hboot & _)
  end.
  split; [now apply Hboot|].
  rewrite Hrun. f_equal. now apply Hb.
Defined.

(** A push of five bytes in chunks of two. *)
Lemma push_writes_witness :
  exists w1 w',
    readLine (portWrite Sim.step ((Q "io.receive('" ++ B "/a" ++ Q "')") ++ [CR])
                (Sim.session [] 2))
    = Ret (Q "io.receive('" ++ B "/a" ++ Q "')") w1
    /\ writeFile Sim.step 9 (B "/a") (B "hello") (Sim.session [] 2) = Ret tt w'
    /\ written w'
       = [Q "io.receive('/a')" ++ [CR];
          [ascii_of_nat 2]; B "he"; [ascii_of_nat 2]; B "ll";
          [ascii_of_nat 1]; B "o"; [ascii_of_nat 0]].
Proof.
  eexists. eexists.
  split; [vm_compute; reflexivity|]. split; [vm_compute; reflexivity|].
  match goal with
  | |- written ?w' = _ =>
      assert (Hw : writeFile Sim.step 9 (B "/a") (B "hello") (Sim.session [] 2)
                   = Ret tt w') by (vm_compute; reflexivity)
  end.
  refine (eq_trans
            (proj1 (proj2 (proj2 (writeFile_sends_buffer_in_chunks Sim.step)))
               9 (B "/a") (B "hello") (Sim.session [] 2) _ _ _ _ Hw) _).
  - simpl. lia.
  - vm_compute. reflexivity.
  - vm_compute. reflexivity.
Defined.

(** A stale banner in the queue is read as the echo: nothing comes back. *)
Lemma echo_mismatch_witness :
  exists w1 w2,
    sendCommand Sim.step 5 (B "os.version()")
      (portWrite Sim.step [EOT] (Sim.session [] 255)) = Ret [] w1
    /\ readFile Sim.step 5 (B "/a")
         (portWrite Sim.step [EOT] (Sim.session [] 255)) = Ret None w2.
Proof.
  eexists. eexists. split.
  - eapply (proj1 (echo_mismatch_gives_nothing Sim.step 5 (B "os.version()") []
                     (B "Lua RTOS-running-ESP32") _ _)).
    + vm_compute. reflexivity.
    + discriminate.
  - eapply (proj2 (echo_mismatch_gives_nothing Sim.step 5 [] (B "/a")
                     (B "Lua RTOS-running-ESP32") _ _)).
    + vm_compute. reflexivity.
    + discriminate.
Defined.

(** A script that prints two lines. *)
Lemma sendCommand_witness :
  exists w1 w2,
    readLine (portWrite Sim.step (Q "dofile('/x')" ++ [CR; LF])
                (Sim.session [(B "/x", B "a" ++ [CR; LF] ++ B "b")] 255))
    = Ret (Q "dofile('/x')") w1
    /\ linesUntilPrompt 5 w1 = Ret [B "a"; B "b"] w2
    /\ sendCommand Sim.step 5 (Q "dofile('/x')")
         (Sim.session [(B "/x", B "a" ++ [CR; LF] ++ B "b")] 255)
       = Ret (B "a" ++ [CR; LF] ++ B "b") w2.
Proof.
  eexists. eexists.
  split; [vm_compute; reflexivity|]. split; [vm_compute; reflexivity|].
  refine (proj1 (sendCommand_returns_response Sim.step 5 (Q "dofile('/x')")
                   _ _ [B "a"; B "b"] _ _ _ _)).
  - vm_compute. reflexivity.
  - vm_compute. reflexivity.
  - discriminate.
Defined.

(** C5, as stated, fails: the script prints an empty line and then [a];
    the lines read before the prompt are the empty line and [a], and the
    response is [a] alone, not the two lines joined. *)
Lemma sendCommand_drops_leading_empty_line :
  exists w1 w2,
    readLine (portWrite Sim.step (Q "dofile('/x')" ++ [CR; LF])
                (Sim.session [(B "/x", [CR; LF] ++ B "a")] 255))
    = Ret (Q "dofile('/x')") w1
    /\ linesUntilPrompt 5 w1 = Ret [[]; B "a"] w2
    /\ sendCommand Sim.step 5 (Q "dofile('/x')")
         (Sim.session [(B "/x", [CR; LF] ++ B "a")] 255)
       = Ret (B "a") w2
    /\ B "a" <> join [CR; LF] [[]; B "a"].
Proof.
  eexists. eexists.
  split; [vm_compute; reflexivity|]. split; [vm_compute; reflexivity|].
  split; [vm_compute; reflexivity|discriminate].
Qed.

(** Attaching the simulated board: it answers the first probe after the
    reset pulse with the booting banner and the later ones with the
    running banner. *)
Lemma attach_witness :
  exists w',
    attach Sim.step Sim.ctl 9 (B "/dev/ttyUSB0")
      (Sim.plugged (B "/dev/ttyUSB0") [] (Some (B "print(1)")))
    = Ret true w'
    /\ connectedBoard w' = thisBoard
    /\ notified w' = [(B "boardPowerOnReset", []); (B "boardAttached", [])]
    /\ info w' = B "print(1)".
Proof.
  eexists. split; [vm_compute; reflexivity|].
  match goal with
  | |- connectedBoard ?w' = _ /\ _ =>
      assert (H : attach Sim.step Sim.ctl 9 (B "/dev/ttyUSB0")
                    (Sim.plugged (B "/dev/ttyUSB0") [] (Some (B "print(1)")))
                  = Ret true w') by (vm_compute; reflexivity);
      destruct (proj2 (reset_has_no_failure_path Sim.step Sim.ctl) _ _ _ _ _ H)
        as (_ & _ & Hopen)
  end.
  destruct (Hopen eq_refl) as (_ & Hc & _).
  split; [exact Hc|]. split; vm_compute; reflexivity.
Defined.

(* ================================================================= *)
(** ** Further properties: what the patterns accept *)

Definition isSome {A : Type} (o : option A) : bool :=
  match o with Some _ => true | None => false end.

Definition notLF (c : ascii) : bool := negb (Ascii.eqb c LF).

(** A text without a newline, as every line the Inspector and [readLine]
    assemble is. *)
Definition noLF (s : bytes) : bool := forallb notLF s.

(** The class [[a-zA-Z]], and the classes [\d] and [\s]. *)
Definition isLetter (c : ascii) : bool :=
  in_range "a" "z" c || in_range "A" "Z" c.

Definition isDigit (c : ascii) : bool :=
  (48 <=? nat_of_ascii c) && (nat_of_ascii c <=? 57).

Definition isSpace (c : ascii) : bool :=
  Ascii.eqb c TAB || Ascii.eqb c LF || Ascii.eqb c FF
  || Ascii.eqb c CR || Ascii.eqb c " "%char.

(** [b] does not go on with a byte of the class [p]. *)
Definition stopsAt (p : ascii -> bool) (b : bytes) : Prop :=
  match b with
  | [] => True
  | c :: _ => p c = false
  end.

(** The continuation that ends a match. *)
Definition accept : nat -> bytes -> caps -> option caps := fun _ _ cs => Some cs.

(** A starred class takes a byte and goes on, or hands over. *)
Lemma star_unfold (p : ascii -> bool) k (pos : nat) (s : bytes) (cs : caps) :
  rmatch (Star (Sat p)) pos s cs k =
  match s with
  | [] => k pos s cs
  | c :: s' =>
      if p c then
        match rmatch (Star (Sat p)) (S pos) s' cs k with
        | Some r => Some r
        | None => k pos s cs
        end
      else k pos s cs
  end.
Proof.
  destruct s as [|c s']; [reflexivity|].
  cbn [rmatch List.length]. destruct (p c); [|reflexivity].
  assert (E : Nat.ltb pos (S pos) = true) by (apply Nat.ltb_lt; lia).
  rewrite E. reflexivity.
Qed.

(** The longest run is tried first: when the continuation takes what
    follows it, that is the match. *)
Lemma star_greedy (p : ascii -> bool) k (a b : bytes) : forall pos cs r,
  forallb p a = true -> stopsAt p b ->
  k (pos + List.length a) b cs = Some r ->
  rmatch (Star (Sat p)) pos (a ++ b) cs k = Some r.
Proof.
  induction a as [|c a IH]; intros pos cs r Ha Hb Hk.
  - rewrite Nat.add_0_r in Hk. simpl app. rewrite star_unfold.
    destruct b as [|c b]; [exact Hk|]. simpl in Hb. now rewrite Hb.
  - simpl in Ha. apply andb_true_iff in Ha as [Hc Ha].
    simpl app. rewrite star_unfold, Hc.
    rewrite (IH (S pos) cs r Ha Hb); [reflexivity|].
    cbn [List.length] in Hk. now rewrite Nat.add_succ_comm.
Qed.

Lemma star_some (p : ascii -> bool) k (s : bytes) : forall pos cs,
  isSome (rmatch (Star (Sat p)) pos s cs k) = true <->
  exists a b, s = a ++ b /\ forallb p a = true
              /\ isSome (k (pos + List.length a) b cs) = true.
Proof.
  induction s as [|c s IH]; intros pos cs; rewrite star_unfold.
  - split.
    + intros H. exists [], []. rewrite Nat.add_0_r. auto.
    + intros (a & b & E & _ & H). symmetry in E.
      apply app_eq_nil in E as [-> ->]. now rewrite Nat.add_0_r in H.
  - split.
    + intros H. destruct (p c) eqn:Hc.
      * destruct (rmatch (Star (Sat p)) (S pos) s cs k) eqn:Hr.
        -- assert (Hs : isSome (rmatch (Star (Sat p)) (S pos) s cs k) = true)
             by now rewrite Hr.
           apply IH in Hs as (a & b & -> & Ha & Hk).
           exists (c :: a), b. simpl. rewrite Hc, Ha.
           now rewrite <- Nat.add_succ_comm.
        -- exists [], (c :: s). now rewrite Nat.add_0_r.
      * exists [], (c :: s). now rewrite Nat.add_0_r.
    + intros (a & b & E & Ha & Hk). destruct a as [|c' a].
      * simpl in E. subst b. rewrite Nat.add_0_r in Hk.
        destruct (p c); [|exact Hk].
        now destruct (rmatch (Star (Sat p)) (S pos) s cs k).
      * injection E as <- ->. simpl in Ha.
        apply andb_true_iff in Ha as [Hc Ha]. rewrite Hc.
        assert (Hs : isSome (rmatch (Star (Sat p)) (S pos) (a ++ b) cs k) = true).
        { apply IH. exists a, b. repeat split; [assumption|].
          cbn [List.length] in Hk. now rewrite Nat.add_succ_comm. }
        now destruct (rmatch (Star (Sat p)) (S pos) (a ++ b) cs k).
Qed.

(** A run of literal bytes in front of [R]. *)
Lemma lits_step (cs : bytes) (R : regex) : forall pos (s : bytes) caps k,
  rmatch (fold_right Cat R (map lit cs)) pos (cs ++ s) caps k
  = rmatch R (pos + List.length cs) s caps k.
Proof.
  induction cs as [|c cs IH]; intros pos s caps k.
  - simpl. now rewrite Nat.add_0_r.
  - cbn [map fold_right app rmatch lit]. rewrite Ascii.eqb_refl.
    rewrite IH. cbn [List.length]. now rewrite Nat.add_succ_comm.
Qed.

Lemma lits_some (cs : bytes) (R : regex) : forall pos (s : bytes) caps k,
  isSome (rmatch (fold_right Cat R (map lit cs)) pos s caps k) = true <->
  exists s', s = cs ++ s'
             /\ isSome (rmatch R (pos + List.length cs) s' caps k) = true.
Proof.
  induction cs as [|c cs IH]; intros pos s caps k.
  - simpl. rewrite Nat.add_0_r. split.
    + intros H. now exists s.
    + now intros (s' & -> & H).
  - cbn [map fold_right rmatch lit]. destruct s as [|x s].
    + split; [discriminate|]. now intros (s' & E & _).
    + destruct (Ascii.eqb_spec c x) as [->|Hne].
      * rewrite IH. cbn [List.length]. rewrite Nat.add_succ_comm. split.
        -- intros (s' & -> & H). now exists s'.
        -- intros (s' & E & H). injection E as ->. now exists s'.
      * split; [discriminate|]. intros (s' & E & _).
        injection E as E _. now contradiction Hne.
Qed.

(** An anchored pattern matches at the start of the text or not at all. *)
Lemma find_from_Bol (R : regex) (s : bytes) : forall pos,
  find_from (Cat Bol R) (S pos) s = None.
Proof.
  induction s as [|c s IH]; intros pos; [reflexivity|].
  cbn [find_from rmatch]. simpl Nat.eqb. apply IH.
Qed.

Lemma find_Bol (R : regex) (s : bytes) :
  find_from (Cat Bol R) 0 s = rmatch R 0 s [] accept.
Proof.
  destruct s as [|c s]; cbn [find_from rmatch]; simpl Nat.eqb;
    fold accept; destruct (rmatch R 0 _ [] accept); try reflexivity.
  apply find_from_Bol.
Qed.

Lemma MatchString_Bol (R : regex) (s : bytes) :
  MatchString (Cat Bol R) s = isSome (rmatch R 0 s [] accept).
Proof. unfold MatchString. now rewrite find_Bol. Qed.

Lemma seq_lits_some (cs : bytes) : forall (c : ascii) pos (s : bytes) caps k,
  isSome (rmatch (seq (map lit (c :: cs))) pos s caps k) = true <->
  exists s', s = (c :: cs) ++ s'
             /\ isSome (k (pos + S (List.length cs)) s' caps) = true.
Proof.
  induction cs as [|c' cs IH]; intros c pos s caps k.
  - cbn [map seq rmatch lit List.length]. destruct s as [|x s].
    + split; [discriminate|]. now intros (s' & E & _).
    + destruct (Ascii.eqb_spec c x) as [->|Hne].
      * rewrite Nat.add_1_r. split.
        -- intros H. now exists s.
        -- intros (s' & E & H). injection E as ->. exact H.
      * split; [discriminate|]. intros (s' & E & _).
        injection E as E _. now contradiction Hne.
  - change (seq (map lit (c :: c' :: cs)))
      with (Cat (lit c) (seq (map lit (c' :: cs)))).
    cbn [rmatch lit]. destruct s as [|x s].
    + split; [discriminate|]. now intros (s' & E & _).
    + destruct (Ascii.eqb_spec c x) as [->|Hne].
      * rewrite IH. cbn [List.length]. rewrite Nat.add_succ_comm. split.
        -- intros (s' & -> & H). now exists s'.
        -- intros (s' & E & H). injection E as ->. now exists s'.
      * split; [discriminate|]. intros (s' & E & _).
        injection E as E _. now contradiction Hne.
Qed.

Lemma rmatch_Cat (r1 r2 : regex) pos (s : bytes) caps k :
  rmatch (Cat r1 r2) pos s caps k
  = rmatch r1 pos s caps (fun pos' s' cs' => rmatch r2 pos' s' cs' k).
Proof. reflexivity. Qed.

Lemma rmatch_Grp (i : nat) (r : regex) pos (s : bytes) caps k :
  rmatch (Grp i r) pos s caps k
  = rmatch r pos s caps
      (fun pos' s' cs' => k pos' s' ((i, firstn (pos' - pos) s) :: cs')).
Proof. reflexivity. Qed.

Lemma noLF_app (a b : bytes) : noLF (a ++ b) = noLF a && noLF b.
Proof. apply forallb_app. Qed.

(** The end of a pattern: anything, then the end of the text. *)
Lemma dots_end_some pos (s : bytes) caps :
  isSome (rmatch (Cat (Star dot) Eol) pos s caps accept) = true <-> noLF s = true.
Proof.
  rewrite rmatch_Cat. change dot with (Sat notLF). rewrite star_some. split.
  - intros (a & b & -> & Ha & H). destruct b; [|discriminate].
    now rewrite app_nil_r.
  - intros H. exists s, []. now rewrite app_nil_r.
Qed.

(** The end of a pattern: anything, a group of anything, the end. *)
Lemma dots_group_end_some (i : nat) pos (s : bytes) caps :
  isSome (rmatch (Cat (Star dot) (Cat (Grp i (Star dot)) Eol)) pos s caps accept)
  = true <-> noLF s = true.
Proof.
  rewrite rmatch_Cat. change dot with (Sat notLF). rewrite star_some. split.
  - intros (a & b & -> & Ha & H). rewrite rmatch_Cat, rmatch_Grp in H.
    apply star_some in H as (a' & b' & -> & Ha' & H).
    destruct b'; [|discriminate].
    rewrite app_nil_r, noLF_app. unfold noLF. now rewrite Ha, Ha'.
  - intros H. exists s, []. rewrite app_nil_r.
    split; [reflexivity|]. split; [exact H|].
    rewrite rmatch_Cat, rmatch_Grp. apply star_some. now exists [], [].
Qed.

(** Anything in front of [X]. *)
Lemma dots_then_some (X : regex) pos (s : bytes) caps k :
  isSome (rmatch (Cat (Star dot) X) pos s caps k) = true <->
  exists a b, s = a ++ b /\ noLF a = true
              /\ isSome (rmatch X (pos + List.length a) b caps k) = true.
Proof. rewrite rmatch_Cat. change dot with (Sat notLF). apply star_some. Qed.

(** X1. [isPrompt] accepts exactly the lines that start with a slash and
    hold a [>] after it, with no newline in them. *)
Theorem isPrompt_shape (l : bytes) :
  isPrompt l = true <->
  exists a b, l = B "/" ++ a ++ B ">" ++ b /\ noLF a = true /\ noLF b = true.
Proof.
  unfold isPrompt.
  change rePrompt
    with (Cat Bol (fold_right Cat
                     (Cat (Star dot)
                        (fold_right Cat (Cat (Star dot) Eol) (map lit (B ">"))))
                     (map lit (B "/")))).
  rewrite MatchString_Bol, lits_some. split.
  - intros (s1 & -> & H). apply dots_then_some in H as (a & b & -> & Ha & H).
    apply lits_some in H as (b' & -> & H). apply dots_end_some in H.
    now exists a, b'.
  - intros (a & b & -> & Ha & Hb). exists (a ++ B ">" ++ b). split; [reflexivity|].
    apply dots_then_some. exists a, (B ">" ++ b). repeat split; [assumption|].
    apply lits_some. exists b. split; [reflexivity|]. now apply dots_end_some.
Qed.

(** A line of a reset cause: [rst:], anything, the text of the cause,
    anything, no newline. *)
Definition resetLine (cause : string) (l : bytes) : Prop :=
  exists a b, l = B "rst:" ++ a ++ B cause ++ b /\ noLF a = true /\ noLF b = true.

Lemma cause_some (i j : nat) (c : ascii) (cs lits2 : bytes) pos (s : bytes) caps :
  isSome (rmatch (Cat (Grp i (seq (map lit (c :: cs))))
                    (fold_right Cat (Cat (Star dot) (Cat (Grp j (Star dot)) Eol))
                       (map lit lits2)))
            pos s caps accept) = true
  <-> exists b, s = (c :: cs) ++ lits2 ++ b /\ noLF b = true.
Proof.
  rewrite rmatch_Cat, rmatch_Grp, seq_lits_some. split.
  - intros (s' & -> & H). apply lits_some in H as (b & -> & H).
    apply dots_group_end_some in H. now exists b.
  - intros (b & -> & Hb). exists (lits2 ++ b). split; [reflexivity|].
    apply lits_some. exists b. split; [reflexivity|].
    now apply dots_group_end_some.
Qed.

(** X2. What the three reset-cause tests accept.  The power-on test wants
    the cause in parentheses; the software and deep-sleep tests, whose
    parentheses are a group, want the bare name directly followed by the
    comma. *)
Theorem reset_cause_lines (l : bytes) :
  (MatchString rePowerOnReset l = true <-> resetLine "(POWERON_RESET),boot:" l)
  /\ (MatchString reSoftwareReset l = true <-> resetLine "SW_CPU_RESET,boot:" l)
  /\ (MatchString reDeepSleepReset l = true <-> resetLine "DEEPSLEEP_RESET,boot" l).
Proof.
  split; [|split].
  - change rePowerOnReset
      with (Cat Bol (fold_right Cat
                       (Cat (Star dot)
                          (fold_right Cat
                             (Cat (Star dot) (Cat (Grp 1 (Star dot)) Eol))
                             (map lit (B "(POWERON_RESET),boot:"))))
                       (map lit (B "rst:")))).
    rewrite MatchString_Bol, lits_some. unfold resetLine. split.
    + intros (s1 & -> & H). apply dots_then_some in H as (a & b & -> & Ha & H).
      apply lits_some in H as (b' & -> & H). apply dots_group_end_some in H.
      now exists a, b'.
    + intros (a & b & -> & Ha & Hb). eexists. split; [reflexivity|].
      apply dots_then_some. exists a, (B "(POWERON_RESET),boot:" ++ b).
      repeat split; [assumption|]. apply lits_some. exists b.
      split; [reflexivity|]. now apply dots_group_end_some.
  - change reSoftwareReset
      with (Cat Bol (fold_right Cat
                       (Cat (Star dot)
                          (Cat (Grp 1 (seq (map lit (B "SW_CPU_RESET"))))
                             (fold_right Cat
                                (Cat (Star dot) (Cat (Grp 2 (Star dot)) Eol))
                                (map lit (B ",boot:")))))
                       (map lit (B "rst:")))).
    rewrite MatchString_Bol, lits_some. unfold resetLine. split.
    + intros (s1 & -> & H). apply dots_then_some in H as (a & b & -> & Ha & H).
      apply cause_some in H as (b' & -> & H). exists a, b'.
      split; [reflexivity|]. now split.
    + intros (a & b & -> & Ha & Hb). eexists. split; [reflexivity|].
      apply dots_then_some. exists a, (B "SW_CPU_RESET,boot:" ++ b).
      repeat split; [assumption|]. apply cause_some. now exists b.
  - change reDeepSleepReset
      with (Cat Bol (fold_right Cat
                       (Cat (Star dot)
                          (Cat (Grp 1 (seq (map lit (B "DEEPSLEEP_RESET"))))
                             (fold_right Cat
                                (Cat (Star dot) (Cat (Grp 2 (Star dot)) Eol))
                                (map lit (B ",boot")))))
                       (map lit (B "rst:")))).
    rewrite MatchString_Bol, lits_some. unfold resetLine. split.
    + intros (s1 & -> & H). apply dots_then_some in H as (a & b & -> & Ha & H).
      apply cause_some in H as (b' & -> & H). exists a, b'.
      split; [reflexivity|]. now split.
    + intros (a & b & -> & Ha & Hb). eexists. split; [reflexivity|].
      apply dots_then_some. exists a, (B "DEEPSLEEP_RESET,boot" ++ b).
      repeat split; [assumption|]. apply cause_some. now exists b.
Qed.

(* ================================================================= *)
(** ** Further properties: the payload of a runtime error *)

Lemma lit_step (c : ascii) (R : regex) pos (s : bytes) caps k :
  rmatch (Cat (lit c) R) pos (c :: s) caps k = rmatch R (S pos) s caps k.
Proof. cbn [rmatch lit]. now rewrite Ascii.eqb_refl. Qed.

Lemma sat_step (p : ascii -> bool) (c : ascii) (R : regex) pos (s : bytes) caps k :
  p c = true ->
  rmatch (Cat (Sat p) R) pos (c :: s) caps k = rmatch R (S pos) s caps k.
Proof. intros H. cbn [rmatch]. now rewrite H. Qed.

Lemma firstn_exact {A : Type} (pos : nat) (a b : list A) :
  firstn (pos + List.length a - pos) (a ++ b) = a.
Proof.
  replace (pos + List.length a - pos) with (List.length a) by lia.
  rewrite firstn_app, Nat.sub_diag, firstn_all. simpl. apply app_nil_r.
Qed.

(** A group of a starred class in front of [R], taken greedily. *)
Lemma group_star_step (i : nat) (p : ascii -> bool) (R : regex) (a b : bytes)
    pos caps k r :
  forallb p a = true -> stopsAt p b ->
  rmatch R (pos + List.length a) b ((i, a) :: caps) k = Some r ->
  rmatch (Cat (Grp i (Star (Sat p))) R) pos (a ++ b) caps k = Some r.
Proof.
  intros Ha Hb H. rewrite rmatch_Cat, rmatch_Grp.
  apply star_greedy; [assumption..|]. now rewrite firstn_exact.
Qed.

Lemma star_step (p : ascii -> bool) (R : regex) (a b : bytes) pos caps k r :
  forallb p a = true -> stopsAt p b ->
  rmatch R (pos + List.length a) b caps k = Some r ->
  rmatch (Cat (Star (Sat p)) R) pos (a ++ b) caps k = Some r.
Proof.
  intros Ha Hb H. rewrite rmatch_Cat. now apply star_greedy.
Qed.

(** The class the pattern reader builds for [[a-zA-Z]]. *)
Definition letterClass : ascii -> bool :=
  fun x => false || in_range "a" "z" x || in_range "A" "Z" x.

Lemma letterClass_isLetter (w : bytes) :
  forallb isLetter w = true -> forallb letterClass w = true.
Proof.
  induction w as [|c w IH]; [reflexivity|]. simpl. intros H.
  apply andb_true_iff in H as [Hc H]. apply andb_true_iff. split.
  - exact Hc.
  - now apply IH.
Qed.

Lemma structured_submatch (w d e m : bytes) (sp : ascii) :
  forallb isLetter w = true -> forallb isDigit d = true -> isSpace sp = true ->
  forallb isDigit e = true -> noLF m = true ->
  FindStringSubmatch reStructuredError
    (w ++ B ":" ++ d ++ B ":" ++ sp :: e ++ B ":" ++ m)
  = Some [(4, m); (3, e); (2, d); (1, w)].
Proof.
  intros Hw Hd Hsp He Hm. apply letterClass_isLetter in Hw.
  unfold FindStringSubmatch.
  change reStructuredError
    with (Cat Bol
            (Cat (Grp 1 (Star (Sat letterClass)))
               (Cat (lit ":")
                  (Cat (Grp 2 (Star (Sat isDigit)))
                     (Cat (lit ":")
                        (Cat (Sat isSpace)
                           (Cat (Grp 3 (Star (Sat isDigit)))
                              (Cat (lit ":")
                                 (Cat (Grp 4 (Star (Sat notLF))) Eol))))))))).
  rewrite find_Bol. rewrite <- (app_nil_r m) at 1.
  apply group_star_step; [assumption|reflexivity|].
  cbn [B list_ascii_of_string app]. rewrite lit_step.
  apply group_star_step; [assumption|reflexivity|].
  rewrite lit_step, (sat_step _ _ _ _ _ _ _ Hsp).
  apply group_star_step; [assumption|reflexivity|].
  rewrite lit_step.
  apply group_star_step; [assumption|exact I|].
  reflexivity.
Qed.

(** X3. A line [where:line: code:message] (letters, digits, one white
    space, digits, a message without newline) is notified as a runtime
    error whose payload carries exactly these four texts. *)
Theorem structured_error_fields (w d e m : bytes) (sp : ascii) :
  forallb isLetter w = true -> forallb isDigit d = true -> isSpace sp = true ->
  forallb isDigit e = true -> noLF m = true ->
  errorTests (w ++ B ":" ++ d ++ B ":" ++ sp :: e ++ B ":" ++ m)
  = [(B "boardRuntimeError",
      Q "'where': '" ++ w ++ Q "', " ++
      Q "'line': '" ++ d ++ Q "', " ++
      Q "'exception': '" ++ e ++ Q "', " ++
      Q "'message': '" ++ m ++ Q "'")].
Proof.
  intros Hw Hd Hsp He Hm.
  pose proof (structured_submatch w d e m sp Hw Hd Hsp He Hm) as H.
  unfold errorTests, structuredInfo, MatchString.
  unfold FindStringSubmatch in *. rewrite H. reflexivity.
Qed.

Lemma loose_submatch (w d sps m : bytes) :
  forallb isLetter w = true -> forallb isDigit d = true ->
  forallb isSpace sps = true -> stopsAt isSpace m -> noLF m = true ->
  FindStringSubmatch reLooseError (w ++ B ":" ++ d ++ B ":" ++ sps ++ m)
  = Some [(3, m); (2, d); (1, w)].
Proof.
  intros Hw Hd Hsp Hstop Hm. apply letterClass_isLetter in Hw.
  unfold FindStringSubmatch.
  change reLooseError
    with (Cat Bol
            (Cat (Grp 1 (Star (Sat letterClass)))
               (Cat (lit ":")
                  (Cat (Grp 2 (Star (Sat isDigit)))
                     (Cat (lit ":")
                        (Cat (Star (Sat isSpace))
                           (Cat (Grp 3 (Star (Sat notLF))) Eol))))))).
  rewrite find_Bol. rewrite <- (app_nil_r m) at 1.
  apply group_star_step; [assumption|reflexivity|].
  cbn [B list_ascii_of_string app]. rewrite lit_step.
  apply group_star_step; [assumption|reflexivity|].
  rewrite lit_step.
  apply star_step; [assumption| |].
  - now rewrite app_nil_r.
  - apply group_star_step; [assumption|exact I|]. reflexivity.
Qed.

(** X4. A line [where:line:] followed by white space and a message that
    the structured test does not take is notified as a runtime error with
    the exception 0; the white space in front of the message is left
    out. *)
Theorem loose_error_fields (w d sps m : bytes) :
  forallb isLetter w = true -> forallb isDigit d = true ->
  forallb isSpace sps = true -> stopsAt isSpace m -> noLF m = true ->
  MatchString reStructuredError (w ++ B ":" ++ d ++ B ":" ++ sps ++ m) = false ->
  errorTests (w ++ B ":" ++ d ++ B ":" ++ sps ++ m)
  = [(B "boardRuntimeError",
      Q "'where': '" ++ w ++ Q "', " ++
      Q "'line': '" ++ d ++ Q "', " ++
      Q "'exception': '0', " ++
      Q "'message': '" ++ m ++ Q "'")].
Proof.
  intros Hw Hd Hsp Hstop Hm Hno.
  pose proof (loose_submatch w d sps m Hw Hd Hsp Hstop Hm) as H.
  unfold errorTests. rewrite Hno.
  unfold looseInfo, MatchString. unfold FindStringSubmatch in *. rewrite H.
  reflexivity.
Qed.

(* ================================================================= *)
(** ** Further properties: what the operations leave alone *)

(** Notifications that are all runtime errors. *)
Definition runtimeErrorsOnly (ns : list notification) : Prop :=
  Forall (fun n => fst n = B "boardRuntimeError") ns.

(** From [w] to [w']: the port is as open as it was, the chunk size, the
    suppression flag, the active board, the board information and the
    host's surroundings are the same, and the writes and the notifications
    were only added to; with the suppression on, what was notified are
    runtime errors only. *)
Definition keeps {D : Type} (w w' : World D) : Prop :=
  port_open w' = port_open w
  /\ chunkSize w' = chunkSize w
  /\ disableInspectorBootNotify w' = disableInspectorBootNotify w
  /\ connectedBoard w' = connectedBoard w
  /\ info w' = info w
  /\ hostFile w' = hostFile w
  /\ serialDevices w' = serialDevices w
  /\ (exists more, written w' = written w ++ more)
  /\ (exists more, notified w' = notified w ++ more
                   /\ (disableInspectorBootNotify w = true ->
                       runtimeErrorsOnly more)).

(** The steps of [reset] before the board information is asked for
    (lines 273 to 314): the pulse on the flow-control lines, the two
    polls, the flush and the push of the board-info script. *)
Definition resetPrelude {D : Type} (dev_byte : D -> ascii -> D * bytes)
    (dev_ctl : D -> bool -> D * bytes) (n : nat) : M D unit :=
  act (portApply dev_ctl true) ;;
  act (portApply dev_ctl false) ;;
  poll n (isBooting dev_byte) ;;
  poll n (isRunning dev_byte) ;;
  consume ;;
  file <- gets hostFile ;;
  match file with
  | Some buffer => writeFile dev_byte n (B "/_info.lua") buffer
  | None => ret tt
  end.

(** Every returning run of [m] keeps. *)
Definition Keeps {D A : Type} (m : M D A) : Prop :=
  forall w a w', m w = Ret a w' -> keeps w w'.

Section Keeping.

Context {D : Type}.
Variable dev_byte : D -> ascii -> D * bytes.
Variable dev_ctl : D -> bool -> D * bytes.

Implicit Types (w : World D).

Lemma keeps_refl w : keeps w w.
Proof.
  repeat split; try reflexivity.
  - exists []. now rewrite app_nil_r.
  - exists []. rewrite app_nil_r. split; [reflexivity|]. constructor.
Qed.

Lemma keeps_trans w1 w2 w3 : keeps w1 w2 -> keeps w2 w3 -> keeps w1 w3.
Proof.
  intros (a1 & a2 & a3 & a4 & a5 & a6 & a7 & (m1 & a8) & (n1 & a9 & a10))
         (b1 & b2 & b3 & b4 & b5 & b6 & b7 & (m2 & b8) & (n2 & b9 & b10)).
  repeat split; try congruence.
  - exists (m1 ++ m2). rewrite b8, a8. now rewrite app_assoc.
  - exists (n1 ++ n2). split.
    + rewrite b9, a9. now rewrite app_assoc.
    + intros H. apply Forall_app. split; [now apply a10|].
      apply b10. congruence.
Qed.

Lemma errorTests_runtime (l : bytes) : runtimeErrorsOnly (errorTests l).
Proof.
  unfold errorTests.
  destruct (MatchString reStructuredError l); [repeat constructor|].
  destruct (MatchString reLooseError l); repeat constructor.
Qed.

Lemma keeps_inspect (b : ascii) w : keeps w (inspect b w).
Proof.
  unfold inspect. destruct (Ascii.eqb b LF).
  - repeat split; try reflexivity.
    + exists []. simpl. now rewrite app_nil_r.
    + eexists. split; [reflexivity|]. intros H. rewrite H. simpl.
      apply errorTests_runtime.
  - destruct (negb (Ascii.eqb b CR)); simpl.
    + repeat split; try reflexivity.
      * exists []. simpl. now rewrite app_nil_r.
      * exists []. simpl. rewrite app_nil_r. split; [reflexivity|constructor].
    + repeat split; try reflexivity.
      * exists []. simpl. now rewrite app_nil_r.
      * exists []. simpl. rewrite app_nil_r. split; [reflexivity|constructor].
Qed.

Lemma keeps_inspector (reads : list readResult) : forall w,
  keeps w (inspector reads w).
Proof.
  induction reads as [|[|n b] reads IH]; intros w; simpl;
    try apply keeps_refl.
  destruct (0 <? n).
  - eapply keeps_trans; [apply keeps_inspect|apply IH].
  - apply IH.
Qed.

Lemma keeps_set_dev (d : D) w : keeps w (set_dev d w).
Proof.
  repeat split; try reflexivity.
  - exists []. simpl. now rewrite app_nil_r.
  - exists []. simpl. rewrite app_nil_r. split; [reflexivity|constructor].
Qed.

Lemma keeps_set_RXQueue (q : bytes) w : keeps w (set_RXQueue q w).
Proof.
  repeat split; try reflexivity.
  - exists []. simpl. now rewrite app_nil_r.
  - exists []. simpl. rewrite app_nil_r. split; [reflexivity|constructor].
Qed.

Lemma keeps_portWrite (bs : bytes) w : keeps w (portWrite dev_byte bs w).
Proof.
  assert (H : keeps w (set_written (written w ++ [bs]) w)).
  { repeat split; try reflexivity.
    - now exists [bs].
    - exists []. simpl. rewrite app_nil_r. split; [reflexivity|constructor]. }
  unfold portWrite. destruct (port_open w); [|exact H].
  destruct (dev_bytes dev_byte (dev w) bs) as [d out].
  eapply keeps_trans; [exact H|].
  eapply keeps_trans; [apply keeps_set_dev|apply keeps_inspector].
Qed.

Lemma keeps_portApply (flow : bool) w : keeps w (portApply dev_ctl flow w).
Proof.
  unfold portApply. destruct (port_open w); [|apply keeps_refl].
  destruct (dev_ctl (dev w) flow) as [d out].
  eapply keeps_trans; [apply keeps_set_dev|apply keeps_inspector].
Qed.

(* ----------------------------------------------------------------- *)
(** *** Through the sequencing *)

Lemma Keeps_ret {A : Type} (a : A) : Keeps (ret (D := D) a).
Proof. intros w a' w' H. injection H as _ H. subst w'. apply keeps_refl. Qed.

Lemma Keeps_bind {A C : Type} (m : M D A) (k : A -> M D C) :
  Keeps m -> (forall a, Keeps (k a)) -> Keeps (bind m k).
Proof.
  intros Hm Hk w c w' H. apply bind_Ret in H as (a & w1 & H1 & H2).
  eapply keeps_trans; [eapply Hm, H1|eapply Hk, H2].
Qed.

Lemma Keeps_act (f : World D -> World D) :
  (forall w, keeps w (f w)) -> Keeps (act f).
Proof. intros Hf w a w' H. injection H as H. subst w'. apply Hf. Qed.

Lemma Keeps_gets {A : Type} (f : World D -> A) : Keeps (gets f).
Proof. intros w a w' H. injection H as _ H. subst w'. apply keeps_refl. Qed.

Lemma Keeps_read : Keeps (read (D := D)).
Proof.
  intros w b w' H. unfold read in H. destruct (RXQueue w); [discriminate|].
  injection H as _ H. subst w'. apply keeps_set_RXQueue.
Qed.

Lemma Keeps_readLine : Keeps (readLine (D := D)).
Proof.
  intros w l w' H. apply readLine_Ret in H as [q ->]. apply keeps_set_RXQueue.
Qed.

Lemma Keeps_consume : Keeps (consume (D := D)).
Proof.
  intros w a w' H. rewrite consume_drains in H. injection H as H. subst w'.
  apply keeps_set_RXQueue.
Qed.

Lemma Keeps_if {A : Type} (b : bool) (m1 m2 : M D A) :
  Keeps m1 -> Keeps m2 -> Keeps (if b then m1 else m2).
Proof. now destruct b. Qed.

Lemma Keeps_Timeout {A : Type} : Keeps (fun _ : World D => @Timeout D A).
Proof. intros w a w' H. discriminate. Qed.

Ltac keeping :=
  repeat match goal with
    | |- Keeps (ret _) => apply Keeps_ret
    | |- Keeps (gets _) => apply Keeps_gets
    | |- Keeps read => apply Keeps_read
    | |- Keeps readLine => apply Keeps_readLine
    | |- Keeps consume => apply Keeps_consume
    | |- Keeps (fun _ => Timeout) => apply Keeps_Timeout
    | |- Keeps (act (portWrite _ _)) =>
        apply Keeps_act; intros; apply keeps_portWrite
    | |- Keeps (act (portApply _ _)) =>
        apply Keeps_act; intros; apply keeps_portApply
    | |- Keeps (bind _ _) => apply Keeps_bind; [|intros]
    | |- Keeps (if _ then _ else _) => apply Keeps_if
    | H : ?G |- ?G => exact H
    end.

Lemma Keeps_sendCommand_loop n : forall response,
  Keeps (sendCommand_loop (D := D) n response).
Proof.
  induction n as [|n IH]; intros response; cbn [sendCommand_loop]; keeping.
  apply IH.
Qed.

Lemma Keeps_sendCommand n (command : bytes) :
  Keeps (sendCommand dev_byte n command).
Proof. unfold sendCommand. keeping. apply Keeps_sendCommand_loop. Qed.

Lemma Keeps_getInfo n : Keeps (getInfo dev_byte n).
Proof. unfold getInfo. keeping. apply Keeps_sendCommand. Qed.

Lemma Keeps_getDirContent n (path : bytes) :
  Keeps (getDirContent dev_byte n path).
Proof. unfold getDirContent. keeping. apply Keeps_sendCommand. Qed.

Lemma Keeps_writeFile_loop (buffer : bytes) n : forall outIndex : Z,
  Keeps (writeFile_loop dev_byte n buffer outIndex).
Proof.
  induction n as [|n IH]; intros outIndex; cbn [writeFile_loop]; keeping;
    apply IH.
Qed.

Lemma Keeps_writeFile n (path buffer : bytes) :
  Keeps (writeFile dev_byte n path buffer).
Proof. unfold writeFile. cbv zeta. keeping. apply Keeps_writeFile_loop. Qed.

Lemma Keeps_readChunk inLen : forall buffer : bytes,
  Keeps (readChunk (D := D) inLen buffer).
Proof.
  induction inLen as [|k IH]; intros buffer; cbn [readChunk]; keeping.
  apply IH.
Qed.

Lemma Keeps_readFile_loop n : forall buffer : bytes,
  Keeps (readFile_loop dev_byte n buffer).
Proof.
  induction n as [|n IH]; intros buffer; cbn [readFile_loop]; keeping.
  - apply Keeps_readChunk.
  - apply IH.
Qed.

Lemma Keeps_readFile n (path : bytes) : Keeps (readFile dev_byte n path).
Proof. unfold readFile. cbv zeta. keeping. apply Keeps_readFile_loop. Qed.

Lemma Keeps_isBooting : Keeps (isBooting dev_byte).
Proof. unfold isBooting. keeping. Qed.

Lemma Keeps_isRunning : Keeps (isRunning dev_byte).
Proof. unfold isRunning. keeping. Qed.

Lemma Keeps_poll n (probe : M D bool) : Keeps probe -> Keeps (poll n probe).
Proof.
  intros Hp. induction n as [|n IH]; cbn [poll]; keeping.
Qed.

(* ----------------------------------------------------------------- *)
(** *** The operations *)

(** X5. A command, a directory listing, a push or a pull that returns
    leaves the board as it was configured: port, chunk size, suppression
    flag, active board and board information are unchanged, the writes and
    notifications are only added to, and with the suppression on only
    runtime errors are notified. *)
Theorem protocol_keeps_board n (command path buffer : bytes) w w' :
  (exists r, sendCommand dev_byte n command w = Ret r w')
  \/ (exists r, getDirContent dev_byte n path w = Ret r w')
  \/ writeFile dev_byte n path buffer w = Ret tt w'
  \/ (exists r, readFile dev_byte n path w = Ret r w') ->
  keeps w w'.
Proof.
  intros [[r H]|[[r H]|[H|[r H]]]].
  - exact (Keeps_sendCommand n command _ _ _ H).
  - exact (Keeps_getDirContent n path _ _ _ H).
  - exact (Keeps_writeFile n path buffer _ _ _ H).
  - exact (Keeps_readFile n path _ _ _ H).
Qed.

Lemma reset_Ret n w (b : bool) w' :
  reset dev_byte dev_ctl n w = Ret b w' ->
  exists w0 w1 i,
    resetPrelude dev_byte dev_ctl n w = Ret tt w0
    /\ keeps w w0 /\ getInfo dev_byte n w0 = Ret i w1 /\ w' = set_info i w1.
Proof.
  unfold reset. rewrite !bind_act. intros H.
  apply bind_Ret in H as ([] & w1 & H1 & H).
  apply bind_Ret in H as ([] & w2 & H2 & H).
  apply bind_Ret in H as ([] & w3 & H3 & H).
  rewrite bind_gets in H.
  apply bind_Ret in H as ([] & w4 & H4 & H).
  apply bind_Ret in H as (i & w5 & H5 & H).
  rewrite bind_act in H. injection H as _ H. subst w'.
  exists w4, w5, i. split; [|split; [|split; [exact H5|reflexivity]]].
  - unfold resetPrelude. rewrite !bind_act.
    rewrite (bind_eq _ _ _ _ _ H1), (bind_eq _ _ _ _ _ H2),
      (bind_eq _ _ _ _ _ H3), bind_gets.
    exact H4.
  - eapply keeps_trans; [apply (keeps_portApply true)|].
    eapply keeps_trans; [apply (keeps_portApply false)|].
    eapply keeps_trans; [exact (Keeps_poll n _ Keeps_isBooting _ _ _ H1)|].
    eapply keeps_trans; [exact (Keeps_poll n _ Keeps_isRunning _ _ _ H2)|].
    eapply keeps_trans; [exact (Keeps_consume _ _ _ H3)|].
    destruct (hostFile w3) as [buffer|].
    + exact (Keeps_writeFile n _ buffer _ _ _ H4).
    + injection H4 as H4. subst w4. apply keeps_refl.
Qed.

Lemma reset_keeps n w (b : bool) w' :
  reset dev_byte dev_ctl n w = Ret b w' ->
  port_open w' = port_open w
  /\ chunkSize w' = chunkSize w
  /\ disableInspectorBootNotify w' = disableInspectorBootNotify w
  /\ connectedBoard w' = connectedBoard w.
Proof.
  intros H. apply reset_Ret in H as (w0 & w1 & i & _ & Hk & Hi & ->).
  pose proof (keeps_trans _ _ _ Hk (Keeps_getInfo n _ _ _ Hi))
    as (a1 & a2 & a3 & a4 & _).
  repeat split; assumption.
Qed.

(** X6. A reset that returns has changed, of the board's configuration,
    the board information only: it is exactly what [getInfo] returned in
    this run, called in the state the steps before it left, and the reset
    ends in the state [getInfo] left with that information stored.  Port,
    chunk size, suppression flag and active board are as before, and with
    the suppression on no reset cause was notified, only runtime
    errors. *)
Theorem reset_changes_info_only n w (b : bool) w' :
  reset dev_byte dev_ctl n w = Ret b w' ->
  port_open w' = port_open w
  /\ chunkSize w' = chunkSize w
  /\ disableInspectorBootNotify w' = disableInspectorBootNotify w
  /\ connectedBoard w' = connectedBoard w
  /\ (exists more, notified w' = notified w ++ more
                   /\ (disableInspectorBootNotify w = true ->
                       runtimeErrorsOnly more))
  /\ (exists w0 w1,
        resetPrelude dev_byte dev_ctl n w = Ret tt w0
        /\ getInfo dev_byte n w0 = Ret (info w') w1
        /\ w' = set_info (info w') w1).
Proof.
  intros H. apply reset_Ret in H as (w0 & w1 & i & Hp & Hk & Hi & ->).
  pose proof (keeps_trans _ _ _ Hk (Keeps_getInfo n _ _ _ Hi))
    as (a1 & a2 & a3 & a4 & _ & _ & _ & _ & a9).
  repeat split; try assumption. exists w0, w1. repeat split; assumption.
Qed.

(** X7. A [runCode] that returns leaves the boot notifications switched
    on, whatever the flag was before, and the port, the chunk size and the
    active board as they were. *)
Theorem runCode_restores_notifications n (path code : bytes) w w' :
  runCode dev_byte dev_ctl n path code w = Ret tt w' ->
  disableInspectorBootNotify w' = false
  /\ port_open w' = port_open w
  /\ chunkSize w' = chunkSize w
  /\ connectedBoard w' = connectedBoard w.
Proof.
  unfold runCode. rewrite bind_act. intros H.
  apply bind_Ret in H as (ok & w1 & Hr & H).
  pose proof (reset_returns_true _ _ _ _ _ _ Hr) as ->.
  apply reset_keeps in Hr as (r1 & r2 & _ & r4).
  rewrite bind_act in H.
  assert (Hk : keeps (set_disableInspectorBootNotify false w1) w').
  { revert H. generalize (set_disableInspectorBootNotify false w1). intros w2 H.
    apply bind_Ret in H as (? & w3 & H3 & H).
    apply bind_Ret in H as (? & w4 & H4 & H).
    rewrite bind_act in H.
    eapply keeps_trans; [exact (Keeps_writeFile n _ _ _ _ _ H3)|].
    eapply keeps_trans; [exact (Keeps_writeFile n _ _ _ _ _ H4)|].
    eapply keeps_trans; [apply keeps_portWrite|].
    exact (Keeps_consume _ _ _ H). }
  destruct Hk as (k1 & k2 & k3 & k4 & _). clear H.
  unfold set_disableInspectorBootNotify in *. cbn in *.
  repeat split; congruence.
Qed.

(** X8. After an [attach] that returned true the board has the port
    open, the chunk size 255 and the boot notifications on, and is the
    active board. *)
Theorem attach_configures_board n (name : bytes) w w' :
  attach dev_byte dev_ctl n name w = Ret true w' ->
  port_open w' = true
  /\ chunkSize w' = 255%Z
  /\ disableInspectorBootNotify w' = false
  /\ connectedBoard w' = thisBoard.
Proof.
  intros H.
  destruct (attach_Ret _ _ _ _ _ _ _ H) as [(_ & E & _)|(_ & _ & w1 & Hr & ->)];
    [discriminate|].
  apply reset_keeps in Hr as (r1 & r2 & r3 & _). clear H.
  unfold opened in *. cbn in *. repeat split; assumption.
Qed.

End Keeping.

(* ================================================================= *)
(** ** Further properties: lines, echoes and a closed port *)

Definition hasCR (s : bytes) : bool := existsb (Ascii.eqb CR) s.

(** A byte from 0x80 on. *)
Definition highByte (b : ascii) : bool := 128 <=? nat_of_ascii b.

Lemma runeString_clean (b : ascii) :
  Ascii.eqb b LF || Ascii.eqb b CR
  || (negb (hasLF (runeString b)) && negb (hasCR (runeString b))) = true.
Proof. destruct b as [[] [] [] [] [] [] [] []]; reflexivity. Qed.

Lemma runeString_length (b : ascii) :
  List.length (runeString b) = if highByte b then 2 else 1.
Proof. destruct b as [[] [] [] [] [] [] [] []]; reflexivity. Qed.

Lemma hasLF_app (a b : bytes) : hasLF (a ++ b) = hasLF a || hasLF b.
Proof. apply existsb_app. Qed.

Lemma hasCR_app (a b : bytes) : hasCR (a ++ b) = hasCR a || hasCR b.
Proof. apply existsb_app. Qed.

Lemma lineText_app (a b : bytes) : lineText (a ++ b) = lineText a ++ lineText b.
Proof.
  unfold lineText, Remove. now rewrite filter_app, flat_map_app.
Qed.

Lemma lineText_clean (raw : bytes) :
  hasLF raw = false ->
  hasLF (lineText raw) = false /\ hasCR (lineText raw) = false.
Proof.
  induction raw as [|b raw IH]; [now split|].
  simpl hasLF. intros H. apply orb_false_iff in H as [Hb H].
  rewrite Ascii.eqb_sym in Hb. destruct (IH H) as [IH1 IH2].
  destruct (Ascii.eqb b CR) eqn:Hc.
  - apply Ascii.eqb_eq in Hc. subst b. now rewrite lineText_cons_CR.
  - rewrite lineText_cons by assumption.
    rewrite hasLF_app, hasCR_app, IH1, IH2, !orb_false_r.
    pose proof (runeString_clean b) as R. rewrite Hb, Hc in R. simpl in R.
    apply andb_true_iff in R as [R1 R2].
    apply negb_true_iff in R1. apply negb_true_iff in R2. now split.
Qed.

Lemma takeLine_first (raw rest : bytes) : forall acc : bytes,
  hasLF raw = false ->
  takeLine (raw ++ LF :: rest) acc = Some (acc ++ lineText raw, rest).
Proof.
  induction raw as [|b raw IH]; intros acc H.
  - cbn [app takeLine]. rewrite Ascii.eqb_refl. now rewrite app_nil_r.
  - simpl hasLF in H. apply orb_false_iff in H as [Hb H].
    rewrite Ascii.eqb_sym in Hb. cbn [app takeLine].
    rewrite Hb, IH by assumption.
    destruct (Ascii.eqb b CR) eqn:Hc; cbn [negb].
    + apply Ascii.eqb_eq in Hc. subst b. now rewrite lineText_cons_CR.
    + rewrite lineText_cons by assumption. now rewrite app_assoc.
Qed.

Lemma takeLine_none (q : bytes) : forall acc : bytes,
  hasLF q = false -> takeLine q acc = None.
Proof.
  induction q as [|b q IH]; intros acc H; [reflexivity|].
  simpl hasLF in H. apply orb_false_iff in H as [Hb H].
  rewrite Ascii.eqb_sym in Hb. cbn [takeLine]. rewrite Hb. now apply IH.
Qed.

Lemma lineText_length (s : bytes) :
  hasCR s = false -> List.length s <= List.length (lineText s).
Proof.
  induction s as [|b s IH]; [auto|]. simpl hasCR. intros H.
  apply orb_false_iff in H as [Hb H]. rewrite Ascii.eqb_sym in Hb.
  rewrite lineText_cons, length_app, runeString_length by assumption.
  specialize (IH H). simpl. destruct (highByte b); lia.
Qed.

Lemma lineText_longer (s : bytes) :
  hasCR s = false -> existsb highByte s = true ->
  List.length s < List.length (lineText s).
Proof.
  induction s as [|b s IH]; [discriminate|]. simpl hasCR. simpl existsb.
  intros H Hh. apply orb_false_iff in H as [Hb H]. rewrite Ascii.eqb_sym in Hb.
  rewrite lineText_cons, length_app, runeString_length by assumption.
  pose proof (lineText_length s H). simpl.
  destruct (highByte b); [lia|]. simpl in Hh. specialize (IH H Hh). lia.
Qed.

Section Serial.

Context {D : Type}.
Variable dev_byte : D -> ascii -> D * bytes.

Implicit Types (w : World D).

Lemma readLine_first w (raw rest : bytes) :
  hasLF raw = false ->
  RXQueue w = raw ++ LF :: rest ->
  readLine w = Ret (lineText raw) (set_RXQueue rest w).
Proof.
  intros H Hq.
  rewrite readLine_takeLine, Hq, takeLine_first by assumption. reflexivity.
Qed.

Lemma readLine_blocked w :
  hasLF (RXQueue w) = false -> readLine w = Blocked (set_RXQueue [] w).
Proof.
  intros H. rewrite readLine_takeLine, takeLine_none by assumption.
  reflexivity.
Qed.

(** X9. [readLine] returns the first line of the queue, whatever its
    length: the bytes before the first newline, with the carriage returns
    left out and every byte from 0x80 on turned into two; the result holds
    no newline and no carriage return, and what follows the newline stays
    queued. *)
Theorem readLine_first_line w (raw rest : bytes) :
  hasLF raw = false ->
  RXQueue w = raw ++ LF :: rest ->
  readLine w = Ret (lineText raw) (set_RXQueue rest w)
  /\ hasLF (lineText raw) = false
  /\ hasCR (lineText raw) = false.
Proof.
  intros H Hq. split; [now apply readLine_first|now apply lineText_clean].
Qed.

(** X10. Once the port is closed, so that nothing can reach the queue
    any more, [readLine] on a queue that holds no newline never returns,
    and it has taken the queued bytes: the start of a line that was
    waiting is lost to whoever reads next. *)
Theorem readLine_waits_for_newline w :
  port_open w = false ->
  hasLF (RXQueue w) = false ->
  readLine w = Blocked (set_RXQueue [] w)
  /\ (forall bs, RXQueue (portWrite dev_byte bs w) = RXQueue w).
Proof.
  intros Hp H. split; [now apply readLine_blocked|].
  intros bs. unfold portWrite. now rewrite Hp.
Qed.

(** X11. [consume] always returns, however much is queued; it leaves an
    empty queue and the board, the line in progress and everything else
    as they were. *)
Theorem consume_empties_queue w :
  exists w',
    consume w = Ret tt w'
    /\ RXQueue w' = []
    /\ dev w' = dev w /\ line w' = line w /\ keeps w w'.
Proof.
  exists (set_RXQueue [] w). split; [apply consume_drains|].
  repeat split; try reflexivity.
  - exists []. simpl. now rewrite app_nil_r.
  - exists []. simpl. rewrite app_nil_r. split; [reflexivity|constructor].
Qed.

(** X12. A command or a path with a byte from 0x80 on never passes the
    echo test against a board that echoes it byte for byte: [readLine]
    turns the byte into two, so [sendCommand] returns the empty string
    and [readFile] returns nil. *)
Theorem high_byte_fails_echo n (command : bytes) w (rest : bytes) :
  hasLF command = false -> hasCR command = false ->
  existsb highByte command = true ->
  (RXQueue (portWrite dev_byte (command ++ [CR; LF]) w)
   = command ++ CR :: LF :: rest ->
   sendCommand dev_byte n command w
   = Ret [] (set_RXQueue rest (portWrite dev_byte (command ++ [CR; LF]) w)))
  /\ (forall path,
        command = Q "io.send('" ++ path ++ Q "')" ->
        RXQueue (portWrite dev_byte (command ++ [CR]) w)
        = command ++ CR :: LF :: rest ->
        readFile dev_byte n path w
        = Ret None (set_RXQueue rest (portWrite dev_byte (command ++ [CR]) w))).
Proof.
  intros Hlf Hcr Hhigh.
  assert (Hne : lineText (command ++ [CR]) <> command).
  { rewrite lineText_app. change (lineText [CR]) with (@nil ascii).
    rewrite app_nil_r. intros E.
    pose proof (lineText_longer command Hcr Hhigh) as L. rewrite E in L. lia. }
  assert (Hraw : hasLF (command ++ [CR]) = false)
    by (rewrite hasLF_app, Hlf; reflexivity).
  split.
  - intros Hq. eapply sendCommand_echo_mismatch; [|exact Hne].
    apply readLine_first; [exact Hraw|].
    rewrite Hq. apply (app_assoc _ [CR] (LF :: rest)).
  - intros path -> Hq. eapply readFile_echo_mismatch; [|exact Hne].
    apply readLine_first; [exact Hraw|].
    rewrite Hq. apply (app_assoc _ [CR] (LF :: rest)).
Qed.

(** X13. A push whose echo differs is silent: [writeFile] returns in the
    state the echo was read in, having written the command and nothing
    else; no chunk is sent and the queue is not flushed. *)
Theorem writeFile_echo_mismatch n (path buffer echo : bytes) w w' :
  readLine (portWrite dev_byte ((Q "io.receive('" ++ path ++ Q "')") ++ [CR]) w)
  = Ret echo w' ->
  echo <> Q "io.receive('" ++ path ++ Q "')" ->
  writeFile dev_byte n path buffer w = Ret tt w'
  /\ written w' = written w ++ [(Q "io.receive('" ++ path ++ Q "')") ++ [CR]].
Proof.
  intros H Hne. split.
  - unfold writeFile, bind, act. cbv zeta beta. rewrite H.
    apply beq_false_iff in Hne. now rewrite Hne.
  - apply readLine_Ret in H as [q ->]. simpl. apply portWrite_written.
Qed.

(** X14. Once the port is closed and the queue holds no complete line,
    no command, push, pull or probe returns: the write reaches no board
    and the read of the echo waits for ever. *)
Theorem closed_port_blocks n (command path buffer : bytes) w :
  port_open w = false -> hasLF (RXQueue w) = false ->
  (exists w', sendCommand dev_byte n command w = Blocked w')
  /\ (exists w', writeFile dev_byte n path buffer w = Blocked w')
  /\ (exists w', readFile dev_byte n path w = Blocked w')
  /\ (exists w', isBooting dev_byte w = Blocked w')
  /\ (exists w', isRunning dev_byte w = Blocked w').
Proof.
  intros Hp Hq.
  assert (Hw : forall bs,
             readLine (portWrite dev_byte bs w)
             = Blocked (set_RXQueue [] (portWrite dev_byte bs w))).
  { intros bs. apply readLine_blocked.
    unfold portWrite. now rewrite Hp. }
  repeat split; eexists.
  - unfold sendCommand, bind, act. now rewrite Hw.
  - unfold writeFile, bind, act. cbv zeta. now rewrite Hw.
  - unfold readFile, bind, act. cbv zeta. now rewrite Hw.
  - unfold isBooting, bind, act. now rewrite Hw.
  - unfold isRunning, bind, act. now rewrite Hw.
Qed.

(** After [detach] on this board the port is closed. *)
Lemma detach_closes_port w : port_open (detach thisBoard w) = false.
Proof. reflexivity. Qed.

End Serial.

(* ================================================================= *)
(** ** Further properties: lines through the Inspector and the listing *)

Lemma split_go_not_nil (sep : ascii) (s : bytes) : forall cur : bytes,
  split_go sep cur s <> [].
Proof.
  induction s as [|c s IH]; intros cur; simpl; [discriminate|].
  destruct (Ascii.eqb c sep); [discriminate|apply IH].
Qed.

Lemma removelast_cons {A : Type} (x : A) (l : list A) :
  l <> [] -> removelast (x :: l) = x :: removelast l.
Proof. destruct l; [contradiction|reflexivity]. Qed.

Lemma last_cons {A : Type} (x d : A) (l : list A) :
  l <> [] -> last (x :: l) d = last l d.
Proof. destruct l; [contradiction|reflexivity]. Qed.

Lemma split_go_line (a rest : bytes) : forall cur : bytes,
  hasLF a = false ->
  split_go LF cur (a ++ LF :: rest) = (cur ++ a) :: split_go LF [] rest.
Proof.
  induction a as [|c a IH]; intros cur H.
  - cbn [app split_go]. rewrite Ascii.eqb_refl. now rewrite app_nil_r.
  - simpl hasLF in H. apply orb_false_iff in H as [Hc H].
    rewrite Ascii.eqb_sym in Hc. cbn [app split_go]. rewrite Hc.
    rewrite IH by assumption. now rewrite <- app_assoc.
Qed.

Lemma split_go_last (a : bytes) : forall cur : bytes,
  hasLF a = false -> split_go LF cur a = [cur ++ a].
Proof.
  induction a as [|c a IH]; intros cur H.
  - simpl. now rewrite app_nil_r.
  - simpl hasLF in H. apply orb_false_iff in H as [Hc H].
    rewrite Ascii.eqb_sym in Hc. cbn [split_go]. rewrite Hc.
    rewrite IH by assumption. now rewrite <- app_assoc.
Qed.

Section Lines.

Context {D : Type}.
Variable dev_byte : D -> ascii -> D * bytes.

Implicit Types (w : World D).

Lemma receive_cons (b : ascii) (bs : bytes) w :
  receive (b :: bs) w = receive bs (inspect b w).
Proof. reflexivity. Qed.

Lemma inspect_flag (b : ascii) w :
  disableInspectorBootNotify (inspect b w) = disableInspectorBootNotify w.
Proof. apply keeps_inspect. Qed.

Lemma inspect_notified (b : ascii) w :
  notified (inspect b w) =
  if Ascii.eqb b LF
  then notified w ++ classify (disableInspectorBootNotify w) (line w)
  else notified w.
Proof.
  unfold inspect. destruct (Ascii.eqb b LF); [reflexivity|].
  destruct (negb (Ascii.eqb b CR)); reflexivity.
Qed.

Lemma receive_lines (bs : bytes) : forall (cur : bytes) w,
  line w = lineText cur ->
  notified (receive bs w)
  = notified w
    ++ flat_map (fun l => classify (disableInspectorBootNotify w) (lineText l))
         (removelast (split_go LF cur bs))
  /\ line (receive bs w) = lineText (last (split_go LF cur bs) []).
Proof.
  induction bs as [|b bs IH]; intros cur w Hl.
  - simpl. now rewrite app_nil_r.
  - rewrite receive_cons. cbn [split_go].
    destruct (Ascii.eqb b LF) eqn:Hb.
    + destruct (IH [] (inspect b w)) as [IH1 IH2].
      { now rewrite inspect_line, Hb. }
      rewrite removelast_cons, last_cons by apply split_go_not_nil.
      rewrite IH1, IH2, inspect_flag, inspect_notified, Hb.
      cbn [flat_map]. now rewrite Hl, <- app_assoc.
    + destruct (IH (cur ++ [b]) (inspect b w)) as [IH1 IH2].
      { rewrite inspect_line, Hb, lineText_app, Hl.
        destruct (Ascii.eqb b CR) eqn:Hc.
        - apply Ascii.eqb_eq in Hc. subst b.
          change (lineText [CR]) with (@nil ascii). now rewrite app_nil_r.
        - rewrite (lineText_cons b []) by assumption.
          change (lineText []) with (@nil ascii). now rewrite app_nil_r. }
      now rewrite IH1, IH2, inspect_flag, inspect_notified, Hb.
Qed.

(** X15. What the Inspector notifies for a run of bytes that starts on a
    fresh line is, line by line, the classification of each complete
    line of the run (the pieces between its newlines, carriage returns
    left out); the piece after the last newline is kept as the line in
    progress and is not classified yet. *)
Theorem inspector_classifies_each_line (bs : bytes) w :
  line w = [] ->
  notified (receive bs w)
  = notified w
    ++ flat_map (fun l => classify (disableInspectorBootNotify w) (lineText l))
         (removelast (Split bs LF))
  /\ line (receive bs w) = lineText (last (Split bs LF) []).
Proof. intros H. now apply receive_lines. Qed.

(* ----------------------------------------------------------------- *)
(** *** From the response to the listing *)

Lemma takeLine_clean (q : bytes) : forall (acc l q' : bytes),
  takeLine q acc = Some (l, q') ->
  exists raw, l = acc ++ lineText raw /\ hasLF raw = false.
Proof.
  induction q as [|b q IH]; intros acc l q' H; [discriminate|].
  cbn [takeLine] in H. destruct (Ascii.eqb b LF) eqn:Hb.
  - injection H as <- _. exists []. now rewrite app_nil_r.
  - apply IH in H as (raw & -> & Hraw). exists (b :: raw). split.
    + destruct (Ascii.eqb b CR) eqn:Hc; cbn [negb].
      * apply Ascii.eqb_eq in Hc. subst b. now rewrite lineText_cons_CR.
      * rewrite lineText_cons by assumption. now rewrite app_assoc.
    + simpl. now rewrite Ascii.eqb_sym, Hb.
Qed.

Lemma readLine_clean w (l : bytes) w' :
  readLine w = Ret l w' -> hasLF l = false.
Proof.
  rewrite readLine_takeLine.
  destruct (takeLine (RXQueue w) []) as [[l' q']|] eqn:E; [|discriminate].
  intros H. injection H as <- _.
  apply takeLine_clean in E as (raw & -> & Hraw).
  now apply lineText_clean.
Qed.

Lemma linesUntilPrompt_clean n : forall w (ls : list bytes) w',
  linesUntilPrompt n w = Ret ls w' ->
  Forall (fun l => hasLF l = false) ls.
Proof.
  induction n as [|n IH]; intros w ls w' H; [discriminate|].
  simpl in H. apply bind_Ret in H as (l & w1 & Hl & H).
  destruct (isPrompt l).
  - injection H as <- _. constructor.
  - apply bind_Ret in H as (ls' & w2 & H' & H).
    injection H as <- _. constructor.
    + now apply readLine_clean in Hl.
    + now apply IH in H'.
Qed.

Lemma fields_CR (l : bytes) : fields (l ++ [CR]) = fields l.
Proof.
  unfold fields, Remove. rewrite filter_app. cbn [filter].
  rewrite Ascii.eqb_refl. cbn [negb]. now rewrite app_nil_r.
Qed.

(** Splitting a response at its newlines gives back the lines that were
    joined, up to the carriage returns. *)
Lemma fields_of_joined (l : bytes) (ls : list bytes) :
  Forall (fun l => hasLF l = false) (l :: ls) ->
  map fields (Split (join [CR; LF] (l :: ls)) LF) = map fields (l :: ls).
Proof.
  revert l. induction ls as [|l' ls IH]; intros l H.
  - inversion_clear H. unfold Split. cbn [join].
    now rewrite split_go_last.
  - inversion_clear H.
    change (join [CR; LF] (l :: l' :: ls))
      with (l ++ [CR; LF] ++ join [CR; LF] (l' :: ls)).
    change (l ++ [CR; LF] ++ join [CR; LF] (l' :: ls))
      with (l ++ CR :: LF :: join [CR; LF] (l' :: ls)).
    replace (l ++ CR :: LF :: join [CR; LF] (l' :: ls))
      with ((l ++ [CR]) ++ LF :: join [CR; LF] (l' :: ls))
      by now rewrite <- app_assoc.
    unfold Split. rewrite split_go_line.
    + cbn [map app]. f_equal; [apply fields_CR|]. now apply IH.
    + rewrite hasLF_app. now rewrite H0.
Qed.

Lemma dirElements_joined (ls : list bytes) :
  Forall (fun l => hasLF l = false) ls ->
  dirElements (join [CR; LF] (dropEmpty ls))
  = filter fourFields (map fields ls).
Proof.
  induction ls as [|l ls IH]; intros H; [reflexivity|].
  inversion H as [|? ? Hl Hls]; subst. cbn [dropEmpty].
  destruct (beq l []) eqn:E.
  - apply beq_true_iff in E. subst l. rewrite IH by assumption. reflexivity.
  - unfold dirElements. now rewrite fields_of_joined.
Qed.

Lemma dirContent_objects (response : bytes) :
  dirContent response
  = B "[" ++ join (B ",") (map dirObject (dirElements response)) ++ B "]".
Proof.
  unfold dirContent, dirElements.
  pose proof (fold_dirLine (Split response LF) [] (Forall_nil _)) as H.
  cbn [join app] in H. now rewrite H.
Qed.

(** X16. From the board to the listing: when the echo matches,
    [getDirContent] returns the bracketed, comma-separated objects of
    exactly the response lines (read before the prompt) that have four
    tab-delimited fields, in order.  Joining the lines and splitting them
    again loses nothing, and the empty lines [sendCommand] leaves out
    would have been skipped anyway. *)
Theorem getDirContent_lists_response_lines n (path : bytes) w w1
    (ls : list bytes) w2 :
  readLine (portWrite dev_byte ((Q "os.ls('" ++ path ++ Q "')") ++ [CR; LF]) w)
  = Ret (Q "os.ls('" ++ path ++ Q "')") w1 ->
  linesUntilPrompt n w1 = Ret ls w2 ->
  getDirContent dev_byte n path w
  = Ret (B "[" ++ join (B ",") (map dirObject (filter fourFields (map fields ls)))
           ++ B "]") w2.
Proof.
  intros Hecho Hls. unfold getDirContent.
  rewrite (bind_eq _ _ _ _ _ (sendCommand_response _ _ _ _ _ _ _ Hecho Hls)).
  unfold ret. rewrite dirContent_objects, dirElements_joined; [reflexivity|].
  now apply linesUntilPrompt_clean in Hls.
Qed.

End Lines.

(* ================================================================= *)
(** ** Further worked instances *)

(** A board that prints a prepared text when it gets a carriage return
    and is silent otherwise. *)
Definition replay (text : bytes) (b : ascii) : bytes * bytes :=
  if Ascii.eqb b CR then ([], text) else (text, []).

(** A session with the replaying board. *)
Definition replaySession (text : bytes) : World bytes :=
  mkWorld text true [] [] 255 false [] [] [] nilBoard None [].

Lemma structured_error_witness :
  errorTests (B "main" ++ B ":" ++ B "12" ++ B ":" ++ " "%char :: B "3" ++ B ":" ++ B "boom")
  = [(B "boardRuntimeError",
      Q "'where': 'main', 'line': '12', 'exception': '3', 'message': 'boom'")].
Proof.
  exact (structured_error_fields (B "main") (B "12") (B "3") (B "boom") " "%char
           eq_refl eq_refl eq_refl eq_refl eq_refl).
Defined.

Lemma loose_error_witness :
  errorTests (B "main" ++ B ":" ++ B "12" ++ B ":" ++ B "  " ++ B "boom")
  = [(B "boardRuntimeError",
      Q "'where': 'main', 'line': '12', 'exception': '0', 'message': 'boom'")].
Proof.
  exact (loose_error_fields (B "main") (B "12") (B "  ") (B "boom")
           eq_refl eq_refl eq_refl eq_refl eq_refl eq_refl).
Defined.

Lemma protocol_keeps_witness :
  exists r w',
    sendCommand Sim.step 5 (Q "dofile('/x')") (Sim.session [(B "/x", B "a")] 255)
    = Ret r w'
    /\ keeps (Sim.session [(B "/x", B "a")] 255) w'.
Proof.
  eexists. eexists. split; [vm_compute; reflexivity|].
  apply (protocol_keeps_board Sim.step 5 (Q "dofile('/x')") [] []).
  left. eexists. vm_compute. reflexivity.
Defined.

Lemma reset_witness :
  exists w',
    reset Sim.step Sim.ctl 9 (Sim.session [(B "/_info.lua", B "{1,}")] 255)
    = Ret true w'
    /\ info w' = B "{1}"
    /\ chunkSize w' = 255%Z
    /\ connectedBoard w' = nilBoard.
Proof.
  eexists. split; [vm_compute; reflexivity|]. split; [vm_compute; reflexivity|].
  match goal with
  | |- chunkSize ?w' = _ /\ _ =>
      assert (H : reset Sim.step Sim.ctl 9
                    (Sim.session [(B "/_info.lua", B "{1,}")] 255) = Ret true w')
        by (vm_compute; reflexivity);
      destruct (reset_changes_info_only Sim.step Sim.ctl _ _ _ _ H)
        as (_ & Hc & _ & Hb & _)
  end.
  split; [exact Hc|exact Hb].
Defined.

Lemma runCode_witness :
  exists w',
    runCode Sim.step Sim.ctl 9 (B "/main.lua") (B "print(1)")
      (set_disableInspectorBootNotify true (Sim.session [] 255))
    = Ret tt w'
    /\ disableInspectorBootNotify w' = false
    /\ notified w' = [].
Proof.
  eexists. split; [vm_compute; reflexivity|].
  match goal with
  | |- disableInspectorBootNotify ?w' = _ /\ _ =>
      assert (H : runCode Sim.step Sim.ctl 9 (B "/main.lua") (B "print(1)")
                    (set_disableInspectorBootNotify true (Sim.session [] 255))
                  = Ret tt w') by (vm_compute; reflexivity);
      destruct (runCode_restores_notifications Sim.step Sim.ctl _ _ _ _ _ H)
        as (Hf & _)
  end.
  split; [exact Hf|vm_compute; reflexivity].
Defined.

Lemma attach_configures_witness :
  exists w',
    attach Sim.step Sim.ctl 9 (B "/dev/ttyUSB0")
      (Sim.plugged (B "/dev/ttyUSB0") [] None) = Ret true w'
    /\ port_open w' = true /\ chunkSize w' = 255%Z.
Proof.
  eexists. split; [vm_compute; reflexivity|].
  match goal with
  | |- port_open ?w' = _ /\ _ =>
      assert (H : attach Sim.step Sim.ctl 9 (B "/dev/ttyUSB0")
                    (Sim.plugged (B "/dev/ttyUSB0") [] None) = Ret true w')
        by (vm_compute; reflexivity);
      destruct (attach_configures_board Sim.step Sim.ctl _ _ _ _ H)
        as (Hp & Hc & _)
  end.
  split; [exact Hp|exact Hc].
Defined.

Lemma readLine_first_line_witness :
  readLine (set_RXQueue (B "ok" ++ [CR; LF] ++ B "next") (Sim.session [] 255))
  = Ret (B "ok") (set_RXQueue (B "next") (Sim.session [] 255)).
Proof.
  exact (proj1 (readLine_first_line
                  (set_RXQueue (B "ok" ++ [CR; LF] ++ B "next") (Sim.session [] 255))
                  (B "ok" ++ [CR]) (B "next") eq_refl eq_refl)).
Defined.

Lemma readLine_waits_witness :
  readLine (set_RXQueue (B "/ > ") (detach thisBoard (Sim.session [] 255)))
  = Blocked (detach thisBoard (Sim.session [] 255)).
Proof.
  exact (proj1 (readLine_waits_for_newline Sim.step
                  (set_RXQueue (B "/ > ") (detach thisBoard (Sim.session [] 255)))
                  eq_refl eq_refl)).
Defined.

Lemma high_byte_witness :
  exists w',
    sendCommand Sim.step 5 [ascii_of_nat 233] (Sim.session [] 255) = Ret [] w'.
Proof.
  eexists.
  refine (proj1 (high_byte_fails_echo Sim.step 5 [ascii_of_nat 233]
                   (Sim.session [] 255) Sim.prompt eq_refl eq_refl eq_refl) _).
  vm_compute. reflexivity.
Defined.

Lemma writeFile_mismatch_witness :
  exists w',
    writeFile Sim.step 5 (B "/a") (B "hello")
      (portWrite Sim.step [EOT] (Sim.session [] 255)) = Ret tt w'
    /\ List.length (written w') = 2.
Proof.
  eexists. split.
  - refine (proj1 (writeFile_echo_mismatch Sim.step 5 (B "/a") (B "hello")
                     (B "Lua RTOS-running-ESP32") _ _ _ _)).
    + vm_compute. reflexivity.
    + discriminate.
  - vm_compute. reflexivity.
Defined.

Lemma closed_port_witness :
  exists w',
    sendCommand Sim.step 5 (B "os.version()")
      (detach thisBoard (Sim.session [] 255)) = Blocked w'.
Proof.
  exact (proj1 (closed_port_blocks Sim.step 5 (B "os.version()") [] []
                  (detach thisBoard (Sim.session [] 255)) eq_refl eq_refl)).
Defined.

Lemma inspector_lines_witness :
  notified (receive (B "main:12: 3:boom" ++ [CR; LF] ++ B "rst:") (Sim.session [] 255))
  = [(B "boardRuntimeError",
      Q "'where': 'main', 'line': '12', 'exception': '3', 'message': 'boom'")]
  /\ line (receive (B "main:12: 3:boom" ++ [CR; LF] ++ B "rst:") (Sim.session [] 255))
     = B "rst:".
Proof.
  destruct (inspector_classifies_each_line
              (B "main:12: 3:boom" ++ [CR; LF] ++ B "rst:") (Sim.session [] 255)
              eq_refl) as [H1 H2].
  split.
  - rewrite H1. vm_compute. reflexivity.
  - rewrite H2. vm_compute. reflexivity.
Defined.

(** A listing of two entries and a line that is none. *)
Definition listingText : bytes :=
  Q "os.ls('/')" ++ [CR; LF]
  ++ B "f" ++ [TAB] ++ B "10" ++ [TAB] ++ B "2024-01-01" ++ [TAB] ++ B "a.lua" ++ [CR; LF]
  ++ B "badline" ++ [CR; LF]
  ++ B "d" ++ [TAB] ++ B "0" ++ [TAB] ++ B "2024-01-01" ++ [TAB] ++ B "sub" ++ [CR; LF]
  ++ B "/ > " ++ [CR; LF].

Lemma listing_witness :
  exists w',
    getDirContent replay 5 (B "/") (replaySession listingText)
    = Ret (Q "[{'type': 'f','size': '10','date': '2024-01-01','name': 'a.lua'},{'type': 'd','size': '0','date': '2024-01-01','name': 'sub'}]") w'.
Proof.
  eexists.
  refine (getDirContent_lists_response_lines replay 5 (B "/")
            (replaySession listingText) _
            [B "f" ++ [TAB] ++ B "10" ++ [TAB] ++ B "2024-01-01" ++ [TAB] ++ B "a.lua";
             B "badline";
             B "d" ++ [TAB] ++ B "0" ++ [TAB] ++ B "2024-01-01" ++ [TAB] ++ B "sub"]
            _ _ _).
  - vm_compute. reflexivity.
  - vm_compute. reflexivity.
Defined.
